(** * SoftBank stock simulation: the inventory roll-forward and the
    part-number alias resolution of [SoftBank_StockCalculate.py].

    The development embeds [calculate_inventory] and the frame-rewriting
    part of [export_to_excel] (exclusions, one-to-one rules, many-to-one
    rules) and proves the properties the specification states about them.

    Modelling conventions.
    - A calendar date stored in a table or on the date axis is its proleptic
      Gregorian ordinal ([date.toordinal()]), an integer; [timedelta(days=n)]
      is the addition of [n].
    - Quantities and balances are integers ([Z]).  The source keeps the
      balances in [float64] cells; on the integral counts the tables hold the
      two agree, and a null quantity, which [sum] skips, is the quantity 0.
    - Part numbers are strings; null keys are outside the model.
    - A [DataFrame] is its row index and a finite map from column label to
      the column's values, one per index entry.  The program never holds two
      columns under one label (the products are distinct, and a column is
      renamed or created only under a label that is absent), and the
      left-to-right order of the columns is not modelled. *)

From stdpp Require Import base decidable option list list_numbers.
From stdpp Require Import gmap fin_maps strings sorting.

Local Open Scope Z_scope.

(** ** Calendar: the part of [datetime.date] the program uses *)

Record date := { year : Z; month : Z; day : Z }.

Definition is_leap (y : Z) : bool :=
  bool_decide (y `mod` 4 = 0)
  && (negb (bool_decide (y `mod` 100 = 0)) || bool_decide (y `mod` 400 = 0)).

Definition days_before_year (y : Z) : Z :=
  let y' := y - 1 in y' * 365 + y' `div` 4 - y' `div` 100 + y' `div` 400.

Definition DAYS_BEFORE_MONTH : list Z :=
  [0; 0; 31; 59; 90; 120; 151; 181; 212; 243; 273; 304; 334].

Definition days_before_month (y m : Z) : Z :=
  default 0 (DAYS_BEFORE_MONTH !! Z.to_nat m)
  + (if bool_decide (2 < m) && is_leap y then 1 else 0).

Definition toordinal (d : date) : Z :=
  days_before_year (year d) + days_before_month (year d) (month d) + day d.

(** [d.replace(day=n)] *)
Definition replace_day (d : date) (n : Z) : date :=
  {| year := year d; month := month d; day := n |}.

(** ** The input tables *)

(** A cell of the [Month-End_SAP_Inventory] column as the program looks at
    it: a number (or text that [float] parses to it), a null, or a value on
    which [float] raises [ValueError] or [TypeError]. *)
Inductive qty_cell := QNum (q : Z) | QNull | QBad.

Module Factory.
Record row := { Part_No : string; eta_FLTC : Z; Qty : Z; Status : option string }.
End Factory.

Module Order.
Record row := { Product_Name : string; Shipment_Date : Z; Quantity : Z;
                Quotation_status : option string }.
End Order.

Module Product.
Record row := { Part_No : string; Month_End_SAP_Inventory : qty_cell;
                Model : option string }.
End Product.

Module OneToOne.
Record row := { Free_Part_No : string; Main_Part_No : string }.
End OneToOne.

Module ManyToOne.
Record row := { Main_Part_No : string; Alias_Part_No : string }.
End ManyToOne.

(** ** Frames and series *)

Record DataFrame := { index : list Z; data : gmap string (list Z) }.

(** [pd.DataFrame(index=idx, columns=cols, data=v)] *)
Definition full_frame (idx : list Z) (cols : list string) (v : Z) : DataFrame :=
  {| index := idx;
     data := list_to_map ((λ p, (p, replicate (length idx) v)) <$> cols) |}.

(** [Index.get_loc]: the position of a label on the axis. *)
Definition get_loc (idx : list Z) (d : Z) : option nat :=
  fst <$> list_find (λ x, x = d) idx.

(** [df.loc[d]]: the row at label [d], a series labelled by the columns.
    The program only reads labels of the frame's own axis; for any other
    label pandas raises [KeyError], rendered here as the empty series. *)
Definition loc (df : DataFrame) (d : Z) : gmap string Z :=
  match get_loc (index df) d with
  | Some i => (λ c : list Z, default 0 (c !! i)) <$> data df
  | None => ∅
  end.

(** [df.loc[d] = s]: every column takes the value [s] has under its label.
    With a label that is not on the axis pandas appends a row. *)
Definition set_loc (df : DataFrame) (d : Z) (s : gmap string Z) : DataFrame :=
  match get_loc (index df) d with
  | Some i =>
      {| index := index df;
         data := map_imap (λ p c, Some (<[i := default 0 (s !! p)]> c)) (data df) |}
  | None =>
      {| index := index df ++ [d];
         data := map_imap (λ p c, Some (c ++ [default 0 (s !! p)])) (data df) |}
  end.

(** [df.loc[d, p] = q] for a label [d] on the axis and a column [p] of the
    frame, the only use the program makes of it. *)
Definition set_at (df : DataFrame) (d : Z) (p : string) (q : Z) : DataFrame :=
  match get_loc (index df) d with
  | Some i => {| index := index df; data := alter (λ c, <[i := q]> c) p (data df) |}
  | None => df
  end.

(** [a + b] and [a - b] on series that carry the same labels. *)
Definition series_add (a b : gmap string Z) : gmap string Z := map_zip_with Z.add a b.
Definition series_sub (a b : gmap string Z) : gmap string Z := map_zip_with Z.sub a b.

(** [a + b] on two columns of one frame: they share the axis, so the
    alignment is positional. *)
Definition column_add (a b : list Z) : list Z := zip_with Z.add a b.

(** [Series.unique()]: the distinct values in order of first appearance. *)
Fixpoint unique (l : list string) : list string :=
  match l with
  | [] => []
  | x :: l' => x :: filter (λ y, y ≠ x) (unique l')
  end.

(** [groupby(keys)[col].sum()]: one total per key. *)
Definition groupby_sum (rows : list (Z * string * Z)) : gmap (Z * string) Z :=
  foldl (λ g r, <[r.1 := default 0 (g !! r.1) + r.2]> g) ∅ rows.

(** [.unstack(fill_value=0).reindex(columns=cols, index=idx, fill_value=0)] *)
Definition unstack_reindex (g : gmap (Z * string) Z) (cols : list string)
    (idx : list Z) : DataFrame :=
  {| index := idx;
     data := list_to_map ((λ p, (p, (λ d, default 0 (g !! (d, p))) <$> idx)) <$> cols) |}.

(** ** [calculate_inventory] *)

Definition start_date (today : date) : Z := toordinal (replace_day today 1).
Definition end_date (today : date) : Z := start_date today + 180.

(** [pd.date_range(start=start_date, end=end_date).date] *)
Definition date_range (today : date) : list Z :=
  seqZ (start_date today) (end_date today - start_date today + 1).

Definition excluded_statuses : list string :=
  ["quotation"; "cancel"; "confirming"; "double cancel"]%string.

(** [Series.isin]: a null is in no list of strings. *)
Definition isin (v : option string) (l : list string) : bool :=
  match v with
  | Some s => bool_decide (s ∈ l)
  | None => false
  end.

Definition filter_orders (start : Z) (order_data : list Order.row) : list Order.row :=
  filter (λ r, start ≤ Order.Shipment_Date r
               ∧ ¬ isin (Order.Quotation_status r) excluded_statuses) order_data.

Definition products_of (product_data : list Product.row) : list string :=
  unique (Product.Part_No <$> product_data).

Definition notna (c : qty_cell) : bool :=
  match c with QNull => false | _ => true end.

(** [dropna(subset=['Part_No', 'Month-End_SAP_Inventory'])] *)
Definition dropna (product_data : list Product.row) : list Product.row :=
  filter (λ r, notna (Product.Month_End_SAP_Inventory r)) product_data.

(** [drop_duplicates(subset=['Part_No'], keep='first')] *)
Fixpoint drop_duplicates (rows : list Product.row) : list Product.row :=
  match rows with
  | [] => []
  | r :: rows' =>
      r :: filter (λ r', Product.Part_No r' ≠ Product.Part_No r) (drop_duplicates rows')
  end.

(** [float(q)]; [None] stands for the exception the [try] catches.  The
    caller tests [notna] first, so the null case is never evaluated. *)
Definition float (c : qty_cell) : option Z :=
  match c with
  | QNum q => Some q
  | QNull => Some 0
  | QBad => None
  end.

Definition set_initial (start : Z) (clean_product_data : list Product.row)
    (inventory : DataFrame) (product : string) : DataFrame :=
  let matching_rows := filter (λ r, Product.Part_No r = product) clean_product_data in
  match matching_rows with
  | r :: _ =>
      let initial_qty := Product.Month_End_SAP_Inventory r in
      match (if notna initial_qty then float initial_qty else Some 0) with
      | Some q => set_at inventory start product q
      | None => set_at inventory start product 0
      end
  | [] => set_at inventory start product 0
  end.

(** The frame after the loop that sets the starting stock (lines 71-100). *)
Definition initial_inventory (today : date) (product_data : list Product.row) : DataFrame :=
  let products := products_of product_data in
  let inventory := full_frame (date_range today) products 0 in
  let clean_product_data := drop_duplicates (dropna product_data) in
  foldl (set_initial (start_date today) clean_product_data) inventory products.

Definition factory_agg (today : date) (products : list string)
    (factory_data : list Factory.row) : DataFrame :=
  let valid_factory_data :=
    filter (λ r, Factory.Part_No r ∈ products) factory_data in
  match valid_factory_data with
  | [] => full_frame (date_range today) products 0
  | _ =>
      unstack_reindex
        (groupby_sum ((λ r, (Factory.eta_FLTC r, Factory.Part_No r, Factory.Qty r))
                        <$> valid_factory_data))
        products (date_range today)
  end.

(** [order_data] is the table that survived the status and date filter. *)
Definition order_agg (today : date) (products : list string)
    (order_data : list Order.row) : DataFrame :=
  match order_data with
  | [] => full_frame (date_range today) products 0
  | _ =>
      unstack_reindex
        (groupby_sum ((λ r, (Order.Shipment_Date r, Order.Product_Name r, Order.Quantity r))
                        <$> order_data))
        products (date_range today)
  end.

(** One turn of the day loop: [i] and [current_date] come from
    [enumerate(date_range)]. *)
Definition roll_step (dr : list Z) (f_agg o_agg : DataFrame)
    (inventory : DataFrame) (it : nat * Z) : DataFrame :=
  let '(i, current_date) := it in
  match i with
  | O =>
      let daily_in := loc f_agg current_date in
      let daily_out := loc o_agg current_date in
      set_loc inventory current_date
        (series_sub (series_add (loc inventory current_date) daily_in) daily_out)
  | S j =>
      let prev_date := default 0 (dr !! j) in
      let daily_in := loc f_agg current_date in
      let daily_out := loc o_agg current_date in
      set_loc inventory current_date
        (series_sub (series_add (loc inventory prev_date) daily_in) daily_out)
  end.

Definition roll_forward (dr : list Z) (f_agg o_agg inventory : DataFrame) : DataFrame :=
  foldl (roll_step dr f_agg o_agg) inventory (imap pair dr).

Definition calculate_inventory (today : date) (factory_data : list Factory.row)
    (order_data : list Order.row) (product_data : list Product.row) : DataFrame :=
  let order_data := filter_orders (start_date today) order_data in
  let products := products_of product_data in
  let inventory := initial_inventory today product_data in
  roll_forward (date_range today)
    (factory_agg today products factory_data)
    (order_agg today products order_data)
    inventory.

(** ** [export_to_excel]: the rewriting of the frame (lines 164-189) *)

(** [p in inventory.columns] *)
Definition has_column (df : DataFrame) (p : string) : Prop := is_Some (data df !! p).

(** [df.drop(columns=[p], inplace=True, errors='ignore')]; the calls without
    [errors='ignore'] are guarded by [p in inventory.columns]. *)
Definition drop (p : string) (df : DataFrame) : DataFrame :=
  {| index := index df; data := delete p (data df) |}.

(** [df[main] += df[src]] *)
Definition iadd (main src : string) (df : DataFrame) : DataFrame :=
  match data df !! main, data df !! src with
  | Some cm, Some cs => {| index := index df; data := <[main := column_add cm cs]> (data df) |}
  | _, _ => df
  end.

(** [df.rename(columns={old: new}, inplace=True)] *)
Definition rename (old new : string) (df : DataFrame) : DataFrame :=
  match data df !! old with
  | Some c => {| index := index df; data := <[new := c]> (delete old (data df)) |}
  | None => df
  end.

(** [df[main] = df[src]] *)
Definition assign (main src : string) (df : DataFrame) : DataFrame :=
  match data df !! src with
  | Some c => {| index := index df; data := <[main := c]> (data df) |}
  | None => df
  end.

(** [excluded_df['Excluded_Part_No'].dropna().tolist()] *)
Definition excluded_parts (excluded_df : list (option string)) : list string :=
  omap id excluded_df.

Definition exclude_step (inventory : DataFrame) (part_no : string) : DataFrame :=
  if decide (has_column inventory part_no) then drop part_no inventory else inventory.

Definition one_to_one_step (inventory : DataFrame) (row : OneToOne.row) : DataFrame :=
  let free_part := OneToOne.Free_Part_No row in
  let main_part := OneToOne.Main_Part_No row in
  if decide (has_column inventory free_part) then
    drop free_part
      (if decide (has_column inventory main_part)
       then iadd main_part free_part inventory
       else rename free_part main_part inventory)
  else inventory.

Definition many_to_one_step (main_part : string) (inventory : DataFrame)
    (alias_part : string) : DataFrame :=
  if decide (has_column inventory alias_part) then
    drop alias_part
      (if decide (has_column inventory main_part)
       then iadd main_part alias_part inventory
       else assign main_part alias_part inventory)
  else inventory.

(** The order [groupby] sorts string keys in: code points, which is the
    byte order of the UTF-8 strings here. *)
Definition str_le (a b : string) : Prop := String.leb a b = true.

Local Instance str_le_dec : RelDecision str_le.
Proof. intros a b. unfold str_le. apply _. Defined.

(** [many_to_one_df.groupby('Main_Part_No')]: the groups in ascending order
    of the key, each with its rows in table order; what the loop reads of a
    group is its [Alias_Part_No] column. *)
Definition groupby_main (many_to_one_df : list ManyToOne.row)
    : list (string * list string) :=
  (λ k, (k, ManyToOne.Alias_Part_No
              <$> filter (λ r, ManyToOne.Main_Part_No r = k) many_to_one_df))
    <$> merge_sort str_le (unique (ManyToOne.Main_Part_No <$> many_to_one_df)).

(** The inner loop over one group. *)
Definition merge_group (inventory : DataFrame) (g : string * list string) : DataFrame :=
  foldl (many_to_one_step g.1) inventory g.2.

Definition apply_exclusions (inventory : DataFrame)
    (excluded_df : list (option string)) : DataFrame :=
  foldl exclude_step inventory (excluded_parts excluded_df).

(** The frame [export_to_excel] transposes and writes. *)
Definition export_to_excel (inventory : DataFrame)
    (excluded_df : list (option string)) (one_to_one_df : list OneToOne.row)
    (many_to_one_df : list ManyToOne.row) : DataFrame :=
  let inventory := apply_exclusions inventory excluded_df in
  let inventory := foldl one_to_one_step inventory one_to_one_df in
  foldl merge_group inventory (groupby_main many_to_one_df).

(** ** [export_to_excel]: the report rows and their styling (lines 191-258) *)

(** [product_data.set_index('Part_No')['Model'].to_dict()]: a dictionary
    filled row by row, a later row of a part replacing an earlier one. *)
Definition part_no_model_mapping (product_data : list Product.row)
    : gmap string (option string) :=
  foldl (λ m r, <[Product.Part_No r := Product.Model r]> m) ∅ product_data.

(** [index.map(mapping)] at one label: a label that is no key gives a null. *)
Definition index_map (mapping : gmap string (option string)) (p : string)
    : option string :=
  match mapping !! p with
  | Some model => model
  | None => None
  end.

(** [inventory.T] with the column [Model] inserted in front: one row per
    part, holding the model and the balances of the part, one per date. *)
Definition inventory_transposed (inventory : DataFrame)
    (product_data : list Product.row) : gmap string (option string * list Z) :=
  map_imap
    (λ p c, Some (index_map (part_no_model_mapping product_data) p, c))
    (data inventory).

(** [calendar.monthrange(year, month)[1]]: the number of days of the month. *)
Definition mdays : list Z := [0; 31; 28; 31; 30; 31; 30; 31; 31; 30; 31; 30; 31].

Definition monthrange_days (y m : Z) : Z :=
  default 0 (mdays !! Z.to_nat m)
  + (if bool_decide (m = 2) && is_leap y then 1 else 0).

(** A cell of the header row as [get_month_end_columns] looks at it: a
    [datetime], or anything else (empty, text). *)
Inductive header_cell := HDate (d : date) | HOther.

(** [ws.cell(row=1, column=col).value], the columns being counted from 1. *)
Definition header_value (header : list header_cell) (col : nat) : header_cell :=
  match col with
  | O => HOther
  | S c => default HOther (header !! c)
  end.

Definition is_month_end (c : header_cell) : bool :=
  match c with
  | HDate d => bool_decide (day d = monthrange_days (year d) (month d))
  | HOther => false
  end.

(** The header row has one cell per column, so [ws.max_column] is its
    length; the loop runs over [range(3, ws.max_column + 1)]. *)
Definition get_month_end_columns (header : list header_cell) : list nat :=
  foldl (λ month_end_cols col,
           if is_month_end (header_value header col)
           then month_end_cols ++ [col] else month_end_cols)
        [] (seq 3 (length header - 2)).

(** The value of a data cell: a number, or anything else. *)
Inductive cell_value := VNum (v : Z) | VOther.

(** The fonts the styling loop assigns: [Font(color="FF0000")],
    [Font(color="FF0000", bold=True)] and [Font(bold=True)]. *)
Record font := { red : bool; bold : bool }.

Definition negative_font : font := {| red := true; bold := false |}.
Definition negative_bold_font : font := {| red := true; bold := true |}.
Definition bold_font : font := {| red := false; bold := true |}.

(** The font the styling loop assigns to a cell of column [col]; [None]
    when it leaves the font of the cell as it is. *)
Definition cell_font (value : cell_value) (col : nat) (month_end_cols : list nat)
    : option font :=
  match value with
  | VNum v =>
      let is_negative := bool_decide (v < 0) in
      let is_month_end := bool_decide (col ∈ month_end_cols) in
      if is_negative && is_month_end then Some negative_bold_font
      else if is_negative then Some negative_font
      else if is_month_end then Some bold_font
      else None
  | VOther => None
  end.

(** ** The quantities the specification speaks of *)

Definition Zsum (l : list Z) : Z := foldr Z.add 0 l.

(** The shipment quantities booked on date [d] for part [p]. *)
Definition inbound (factory_data : list Factory.row) (d : Z) (p : string) : Z :=
  Zsum (Factory.Qty <$>
        filter (λ r, Factory.eta_FLTC r = d ∧ Factory.Part_No r = p) factory_data).

(** The quantities of the orders for part [p] on date [d] that pass the
    status and date filter. *)
Definition outbound (start : Z) (order_data : list Order.row) (d : Z) (p : string) : Z :=
  Zsum (Order.Quantity <$>
        filter (λ r, Order.Shipment_Date r = d ∧ Order.Product_Name r = p)
               (filter_orders start order_data)).

(** The cell of a frame at a date and a part. *)
Definition balance (df : DataFrame) (d : Z) (p : string) : option Z := loc df d !! p.

(** ** Notions used to state and prove the properties *)

(** Every column has one value per entry of the axis. *)
Definition wf (df : DataFrame) : Prop :=
  ∀ p c, data df !! p = Some c → length c = length (index df).

(** The value at position [i] of column [p]; 0 where there is none. *)
Definition value (df : DataFrame) (i : nat) (p : string) : Z :=
  default 0 (data df !! p ≫= λ c, c !! i).

(** The balance the roll-forward is expected to leave at position [i]. *)
Fixpoint rolled (f_agg o_agg inv0 : DataFrame) (i : nat) (p : string) : Z :=
  match i with
  | O => value inv0 0 p + value f_agg 0 p - value o_agg 0 p
  | S j => rolled f_agg o_agg inv0 j p + value f_agg (S j) p - value o_agg (S j) p
  end.

(** What the day loop has done once the first [k] dates are processed. *)
Definition roll_inv (dr : list Z) (f_agg o_agg inv0 : DataFrame)
    (k : nat) (df : DataFrame) : Prop :=
  index df = dr ∧
  ∀ p, match data inv0 !! p with
       | None => data df !! p = None
       | Some c0 =>
           ∃ c, data df !! p = Some c ∧ length c = length dr ∧
                (∀ i, (i < k)%nat → c !! i = Some (rolled f_agg o_agg inv0 i p)) ∧
                (∀ i, (k ≤ i)%nat → c !! i = c0 !! i)
       end.

(** The quantity [set_initial] writes for a product. *)
Definition initial_qty (clean_product_data : list Product.row) (product : string) : Z :=
  match filter (λ r, Product.Part_No r = product) clean_product_data with
  | r :: _ =>
      let initial_qty := Product.Month_End_SAP_Inventory r in
      default 0 (if notna initial_qty then float initial_qty else Some 0)
  | [] => 0
  end.

Definition qty_or_zero (c : qty_cell) : Z :=
  match c with QNum q => q | _ => 0 end.

(** The starting quantity of part [p]: that of the first record of [p], in
    table order, whose quantity is not null; 0 when there is no such record
    or when its quantity is not a number. *)
Definition starting_quantity (product_data : list Product.row) (p : string) : Z :=
  match head (filter (λ r, Product.Part_No r = p
                           ∧ notna (Product.Month_End_SAP_Inventory r)) product_data) with
  | Some r => qty_or_zero (Product.Month_End_SAP_Inventory r)
  | None => 0
  end.


(** What a rule of either kind does to the columns: the column [r.1] (a
    free or alias part) is folded into the column [r.2] (the main part). *)
Definition fold_column (m : gmap string (list Z)) (r : string * string)
    : gmap string (list Z) :=
  match m !! r.1 with
  | None => m
  | Some cs =>
      delete r.1
        (<[r.2 := match m !! r.2 with Some cm => column_add cm cs | None => cs end]> m)
  end.

(** The rules in the order [export_to_excel] applies them, each as the pair
    of the part folded away and its main part: the one-to-one rows in table
    order, then the many-to-one groups in ascending order of the main part. *)
Definition rules_of (one_to_one_df : list OneToOne.row)
    (many_to_one_df : list ManyToOne.row) : list (string * string) :=
  ((λ r, (OneToOne.Free_Part_No r, OneToOne.Main_Part_No r)) <$> one_to_one_df)
  ++ (groupby_main many_to_one_df ≫= λ g, (λ a, (a, g.1)) <$> g.2).


(** The columns that the rules fold into [M], taken from the map [m]. *)
Definition contributions (m : gmap string (list Z)) (rs : list (string * string))
    (M : string) : list (list Z) :=
  omap (λ r, if decide (r.2 = M) then m !! r.1 else None) rs.

(** [M]'s own column, if any, plus the contributing columns. *)
Definition column_sum (own : option (list Z)) (cs : list (list Z)) : option (list Z) :=
  match own, cs with
  | Some c, _ => Some (foldl column_add c cs)
  | None, c :: cs' => Some (foldl column_add c cs')
  | None, [] => None
  end.

(** No part is both a main part and a free or alias part of the rules. *)
Definition roles_disjoint (rs : list (string * string)) : Prop :=
  ∀ r, r ∈ rs → r.2 ∉ rs.*1.

(** ** Scenarios of the specification, run on the model *)

Definition today0 : date := {| year := 2026; month := 11; day := 4 |}.
Definition s0 : Z := start_date today0.

Definition products0 : list Product.row :=
  [ {| Product.Part_No := "X"; Product.Month_End_SAP_Inventory := QNum 10;
       Product.Model := Some "mx"%string |};
    {| Product.Part_No := "Y"; Product.Month_End_SAP_Inventory := QNull;
       Product.Model := None |} ]%string.

Definition factory0 : list Factory.row :=
  [ {| Factory.Part_No := "X"; Factory.eta_FLTC := s0 + 2; Factory.Qty := 5;
       Factory.Status := None |} ]%string.

Definition orders0 : list Order.row :=
  [ {| Order.Product_Name := "Y"; Order.Shipment_Date := s0 + 1; Order.Quantity := 3;
       Order.Quotation_status := Some "ordered"%string |} ]%string.

Definition inventory0 : DataFrame := calculate_inventory today0 factory0 orders0 products0.


Definition cancelled_order : Order.row :=
  {| Order.Product_Name := "Y"; Order.Shipment_Date := s0 + 1; Order.Quantity := 4;
     Order.Quotation_status := Some "cancel"%string |}.


(** A small balance matrix over two dates, with the columns F, M, B and Z. *)
Definition matrix0 : DataFrame :=
  {| index := [s0; s0 + 1];
     data := list_to_map [("F", [1; 2]); ("M", [10; 20]); ("B", [3; 4]); ("Z", [5; 6])]%string |}.

Definition rule_F_to_Z : OneToOne.row :=
  {| OneToOne.Free_Part_No := "F"; OneToOne.Main_Part_No := "Z" |}.

Definition rule_F_to_N : OneToOne.row :=
  {| OneToOne.Free_Part_No := "F"; OneToOne.Main_Part_No := "N" |}.

Definition rule_M_to_M : OneToOne.row :=
  {| OneToOne.Free_Part_No := "M"; OneToOne.Main_Part_No := "M" |}.

Definition rule_F_to_M : OneToOne.row :=
  {| OneToOne.Free_Part_No := "F"; OneToOne.Main_Part_No := "M" |}.


Definition alias_B_of_M : ManyToOne.row :=
  {| ManyToOne.Main_Part_No := "M"; ManyToOne.Alias_Part_No := "B" |}.

(** ** Notions for the further properties *)

(** The dense table of a quantity [F] that is given per date and part. *)
Definition agg_frame (dr : list Z) (products : list string) (F : Z → string → Z)
    : DataFrame :=
  {| index := dr;
     data := list_to_map ((λ p, (p, (λ d, F d p) <$> dr)) <$> products) |}.

(** What came in minus what went out for part [p] from the window start
    through the date [d]. *)
Definition net_flow (start : Z) (factory_data : list Factory.row)
    (order_data : list Order.row) (d : Z) (p : string) : Z :=
  Zsum ((λ d', inbound factory_data d' p - outbound start order_data d' p)
          <$> seqZ start (d - start + 1)).

(** The order record passes the status and date filter of
    [calculate_inventory]. *)
Definition survives (start : Z) (r : Order.row) : Prop :=
  start ≤ Order.Shipment_Date r
  ∧ ¬ isin (Order.Quotation_status r) excluded_statuses.

(** What [calculate_inventory] reads of a shipment record. *)
Definition shipment_key (r : Factory.row) : string * Z * Z :=
  (Factory.Part_No r, Factory.eta_FLTC r, Factory.Qty r).

(** Every column of the map has [n] values. *)
Definition wf_columns (n : nat) (m : gmap string (list Z)) : Prop :=
  ∀ p c, m !! p = Some c → length c = n.



(** The last record of part [p] in the product table. *)
Definition last_record (product_data : list Product.row) (p : string)
    : option Product.row :=
  last (filter (λ r, Product.Part_No r = p) product_data).

(** Column [col] has a month-end date in the header row and is one of the
    columns the loop visits. *)
Definition month_end_column (header : list header_cell) (col : nat) : Prop :=
  (3 ≤ col ≤ length header)%nat
  ∧ ∃ d, header !! (col - 1)%nat = Some (HDate d)
         ∧ day d = monthrange_days (year d) (month d).

Definition header0 : list header_cell :=
  [ HOther; HOther;
    HDate {| year := 2026; month := 11; day := 29 |};
    HDate {| year := 2026; month := 11; day := 30 |};
    HDate {| year := 2026; month := 12; day := 1 |} ].


(** Inputs for the further properties. *)
Definition shipment_of_unknown_part : Factory.row :=
  {| Factory.Part_No := "Q"; Factory.eta_FLTC := s0 + 1; Factory.Qty := 9;
     Factory.Status := None |}.

Definition shipment_of_X : Factory.row :=
  {| Factory.Part_No := "X"; Factory.eta_FLTC := s0 + 1; Factory.Qty := 9;
     Factory.Status := Some "cancelled"%string |}.

Definition shipment_of_X_no_status : Factory.row :=
  {| Factory.Part_No := "X"; Factory.eta_FLTC := s0 + 1; Factory.Qty := 9;
     Factory.Status := None |}.

Definition order_of_unknown_part : Order.row :=
  {| Order.Product_Name := "Q"; Order.Shipment_Date := s0 + 1; Order.Quantity := 4;
     Order.Quotation_status := Some "ordered"%string |}.


Definition later_record_of_X : Product.row :=
  {| Product.Part_No := "X"; Product.Month_End_SAP_Inventory := QNum 99;
     Product.Model := Some "other"%string |}.

(** * Facts about the frame primitives *)

Section frame_facts.
Implicit Types (df : DataFrame) (idx : list Z) (d : Z) (p : string).

Lemma get_loc_lookup idx i d :
  NoDup idx → idx !! i = Some d → get_loc idx d = Some i.
Proof.
  intros Hnd Hi. unfold get_loc.
  destruct (list_find (λ x, x = d) idx) as [[j y]|] eqn:E; simpl.
  - apply list_find_Some in E as (Hj & -> & _).
    f_equal. eapply NoDup_lookup; eauto.
  - apply list_find_None in E.
    rewrite Forall_forall in E. exfalso. eapply E; [|reflexivity].
    eapply list_elem_of_lookup_2; eauto.
Qed.

Lemma loc_lookup df d i p :
  get_loc (index df) d = Some i →
  loc df d !! p = (λ c : list Z, default 0 (c !! i)) <$> data df !! p.
Proof. intros H. unfold loc. rewrite H. apply lookup_fmap. Qed.

Lemma set_loc_index df d i s :
  get_loc (index df) d = Some i → index (set_loc df d s) = index df.
Proof. intros H. unfold set_loc. by rewrite H. Qed.

Lemma set_loc_data df d i s p :
  get_loc (index df) d = Some i →
  data (set_loc df d s) !! p
  = (λ c : list Z, <[i := default 0 (s !! p)]> c) <$> data df !! p.
Proof.
  intros H. unfold set_loc. rewrite H. simpl.
  rewrite map_lookup_imap. by destruct (data df !! p).
Qed.

Lemma set_at_index df d p q : index (set_at df d p q) = index df.
Proof. unfold set_at. by destruct (get_loc (index df) d). Qed.

Lemma lookup_list_to_map_fun {A} (f : string → A) (cols : list string) p :
  (list_to_map ((λ x, (x, f x)) <$> cols) : gmap string A) !! p
  = if decide (p ∈ cols) then Some (f p) else None.
Proof.
  induction cols as [|x cols IH].
  - rewrite fmap_nil, list_to_map_nil, lookup_empty.
    case_decide as Hin; [inversion Hin|done].
  - rewrite fmap_cons, list_to_map_cons, lookup_insert, IH.
    rewrite (decide_ext (p ∈ x :: cols) (x = p ∨ p ∈ cols))
      by (rewrite elem_of_cons; intuition congruence).
    destruct (decide (x = p)) as [->|Hne]; [by rewrite decide_True by auto|].
    destruct (decide (p ∈ cols)).
    + by rewrite decide_True by auto.
    + by rewrite decide_False by intuition.
Qed.

Lemma full_frame_data idx cols v p :
  data (full_frame idx cols v) !! p
  = if decide (p ∈ cols) then Some (replicate (length idx) v) else None.
Proof. apply (lookup_list_to_map_fun (λ _, replicate (length idx) v)). Qed.

Lemma unstack_reindex_data g cols idx p :
  data (unstack_reindex g cols idx) !! p
  = if decide (p ∈ cols)
    then Some ((λ d, default 0 (g !! (d, p))) <$> idx) else None.
Proof.
  apply (lookup_list_to_map_fun (λ p, (λ d, default 0 (g !! (d, p))) <$> idx)).
Qed.

Lemma series_lookup (a b c : gmap string Z) p x y z :
  a !! p = Some x → b !! p = Some y → c !! p = Some z →
  series_sub (series_add a b) c !! p = Some (x + y - z).
Proof.
  intros Ha Hb Hc. unfold series_sub, series_add.
  rewrite !map_lookup_zip_with, Ha, Hb, Hc. done.
Qed.
End frame_facts.

(** * The day loop *)

Section roll_forward_facts.
Context (dr : list Z) (f_agg o_agg inv0 : DataFrame).
Hypothesis dr_nodup : NoDup dr.
Hypothesis idx_f : index f_agg = dr.
Hypothesis idx_o : index o_agg = dr.
Hypothesis idx_0 : index inv0 = dr.
Hypothesis wf_0 : wf inv0.
Hypothesis cols_f : ∀ p, is_Some (data inv0 !! p) → is_Some (data f_agg !! p).
Hypothesis cols_o : ∀ p, is_Some (data inv0 !! p) → is_Some (data o_agg !! p).

Let step := roll_step dr f_agg o_agg.
Let expected := rolled f_agg o_agg inv0.
Let roll_inv := roll_inv dr f_agg o_agg inv0.

Lemma agg_loc (agg : DataFrame) d k p :
  index agg = dr → dr !! k = Some d → is_Some (data agg !! p) →
  loc agg d !! p = Some (value agg k p).
Proof.
  intros Hidx Hk [c Hc].
  rewrite (loc_lookup agg d k) by (rewrite Hidx; by apply get_loc_lookup).
  unfold value. by rewrite Hc.
Qed.

Lemma roll_prefix l1 l2 :
  dr = l1 ++ l2 → roll_inv (length l1) (foldl step inv0 (imap pair l1)).
Proof.
  revert l2. induction l1 as [|d l1 IH] using rev_ind; intros l2 Hdr.
  - split; [done|]. intros p. destruct (data inv0 !! p) as [c0|] eqn:E0; [|done].
    exists c0. split; [done|]. split; [rewrite <- idx_0; by eapply wf_0|].
    split; [simpl; intros; lia|done].
  - rewrite <- app_assoc in Hdr. simpl in Hdr.
    destruct (IH _ Hdr) as [Hidx Hcols].
    rewrite imap_app, foldl_app.
    change (roll_inv (length (l1 ++ [d]))
              (step (foldl step inv0 (imap pair l1)) ((length l1 + 0)%nat, d))).
    rewrite Nat.add_0_r.
    set (df := foldl step inv0 (imap pair l1)) in *.
    set (k := length l1) in *.
    assert (Hk : dr !! k = Some d) by (rewrite Hdr; apply list_lookup_middle; done).
    assert (Hloc : get_loc (index df) d = Some k)
      by (rewrite Hidx; by apply get_loc_lookup).
    assert (Hlt : (k < length dr)%nat) by (eapply lookup_lt_Some; eauto).
    rewrite length_app. change (length [d]) with 1%nat. fold k.
    assert (Hstep : ∃ s, step df (k, d) = set_loc df d s ∧
              ∀ p, is_Some (data inv0 !! p) → s !! p = Some (expected k p)).
    { unfold step, roll_step. destruct k as [|j] eqn:Ek.
      - eexists; split; [reflexivity|]. intros p Hp.
        pose proof (Hcols p) as Hc. destruct Hp as [c0 E0]. rewrite E0 in Hc.
        destruct Hc as (c & Hc & _ & _ & Hrest).
        apply series_lookup;
          [|apply (agg_loc f_agg d 0); auto; by rewrite E0
           |apply (agg_loc o_agg d 0); auto; by rewrite E0].
        rewrite (loc_lookup df d 0 p Hloc), Hc. simpl.
        rewrite Hrest by lia. unfold value. by rewrite E0.
      - destruct (lookup_lt_is_Some_2 dr j) as [d' Hj]; [lia|].
        rewrite Hj. simpl.
        eexists; split; [reflexivity|]. intros p Hp.
        pose proof (Hcols p) as Hc. destruct Hp as [c0 E0]. rewrite E0 in Hc.
        destruct Hc as (c & Hc & _ & Hdone & _).
        apply series_lookup;
          [|apply (agg_loc f_agg d (S j)); auto; by rewrite E0
           |apply (agg_loc o_agg d (S j)); auto; by rewrite E0].
        rewrite (loc_lookup df d' j p) by (rewrite Hidx; by apply get_loc_lookup).
        rewrite Hc. simpl. by rewrite Hdone by lia. }
    destruct Hstep as (s & -> & Hs).
    split; [by rewrite (set_loc_index df d k)|].
    intros p. rewrite (set_loc_data df d k s p Hloc).
    pose proof (Hcols p) as Hc.
    destruct (data inv0 !! p) as [c0|] eqn:E0.
    + destruct Hc as (c & Hc & Hlen & Hdone & Hrest).
      rewrite Hc, Hs by done. simpl.
      eexists; split; [reflexivity|]. split; [by rewrite length_insert|]. split.
      * intros i Hi. destruct (decide (i = k)) as [->|Hne].
        -- apply list_lookup_insert_eq. lia.
        -- rewrite list_lookup_insert_ne by done. apply Hdone. lia.
      * intros i Hi. rewrite list_lookup_insert_ne by lia. apply Hrest. lia.
    + by rewrite Hc.
Qed.

Lemma roll_forward_inv : roll_inv (length dr) (roll_forward dr f_agg o_agg inv0).
Proof. apply (roll_prefix dr []). by rewrite app_nil_r. Qed.

Lemma roll_forward_index : index (roll_forward dr f_agg o_agg inv0) = dr.
Proof. apply roll_forward_inv. Qed.

Lemma roll_forward_columns p :
  is_Some (data (roll_forward dr f_agg o_agg inv0) !! p) ↔ is_Some (data inv0 !! p).
Proof.
  pose proof (proj2 roll_forward_inv p) as H.
  destruct (data inv0 !! p).
  - destruct H as (c & -> & _). split; eauto.
  - rewrite H. done.
Qed.

Lemma roll_forward_balance i d p :
  dr !! i = Some d → is_Some (data inv0 !! p) →
  balance (roll_forward dr f_agg o_agg inv0) d p = Some (expected i p).
Proof.
  intros Hi [c0 E0]. pose proof (proj2 roll_forward_inv p) as H.
  rewrite E0 in H. destruct H as (c & Hc & _ & Hdone & _).
  unfold balance.
  rewrite (loc_lookup _ d i)
    by (rewrite roll_forward_index; by apply get_loc_lookup).
  rewrite Hc. simpl. rewrite Hdone; [done|]. eapply lookup_lt_Some; eauto.
Qed.
End roll_forward_facts.

(** * The date axis *)

Lemma date_range_seqZ today : date_range today = seqZ (start_date today) 181.
Proof. unfold date_range, end_date. f_equal. lia. Qed.

Lemma date_range_lookup today (i : nat) :
  (i < 181)%nat → date_range today !! i = Some (start_date today + Z.of_nat i).
Proof. intros Hi. rewrite date_range_seqZ. apply lookup_seqZ_lt. lia. Qed.

Lemma date_range_NoDup today : NoDup (date_range today).
Proof. rewrite date_range_seqZ. apply NoDup_seqZ. Qed.

Lemma date_range_length today : length (date_range today) = 181%nat.
Proof. rewrite date_range_seqZ, length_seqZ. reflexivity. Qed.

(** * Aggregation: [groupby(...).sum()] is the per-key sum *)

Lemma groupby_sum_foldl (rows : list (Z * string * Z)) (g : gmap (Z * string) Z) k :
  default 0 (foldl (λ g r, <[r.1 := default 0 (g !! r.1) + r.2]> g) g rows !! k)
  = default 0 (g !! k) + Zsum (snd <$> filter (λ r, r.1 = k) rows).
Proof.
  revert g. induction rows as [|r rows IH]; intros g.
  - simpl. lia.
  - cbn [foldl]. rewrite IH, lookup_insert, filter_cons.
    destruct (decide (r.1 = k)) as [->|Hne].
    + rewrite fmap_cons. unfold Zsum. simpl. lia.
    + done.
Qed.

Lemma groupby_sum_lookup {A} (key : A → Z * string) (qty : A → Z) (l : list A) k :
  default 0 (groupby_sum ((λ r, (key r, qty r)) <$> l) !! k)
  = Zsum (qty <$> filter (λ r, key r = k) l).
Proof.
  unfold groupby_sum. rewrite groupby_sum_foldl, lookup_empty.
  change (default 0 None) with 0. rewrite Z.add_0_l. f_equal.
  induction l as [|x l IH]; [done|].
  rewrite fmap_cons, !filter_cons. simpl.
  destruct (decide (key x = k)); [|done].
  rewrite !fmap_cons. simpl. by rewrite IH.
Qed.

Section aggregates.
Context (today : date) (products : list string).
Let dr := date_range today.

Lemma full_frame_value idx i p : value (full_frame idx products 0) i p = 0.
Proof.
  unfold value. rewrite full_frame_data. case_decide; [|done]. simpl.
  destruct (replicate (length idx) 0 !! i) as [x|] eqn:E; [|done].
  by apply lookup_replicate in E as [-> _].
Qed.

Lemma unstack_reindex_value g (i : nat) p :
  (i < 181)%nat → p ∈ products →
  value (unstack_reindex g products dr) i p
  = default 0 (g !! (start_date today + Z.of_nat i, p)).
Proof.
  intros Hi Hp. unfold value. rewrite unstack_reindex_data, decide_True by done.
  simpl. rewrite list_lookup_fmap. unfold dr. by rewrite date_range_lookup.
Qed.

Lemma factory_agg_index factory_data :
  index (factory_agg today products factory_data) = dr.
Proof. unfold factory_agg. by destruct (filter _ factory_data). Qed.

Lemma factory_agg_columns factory_data p :
  p ∈ products → is_Some (data (factory_agg today products factory_data) !! p).
Proof.
  intros Hp. unfold factory_agg. destruct (filter _ factory_data).
  - rewrite full_frame_data, decide_True by done. eauto.
  - rewrite unstack_reindex_data, decide_True by done. eauto.
Qed.

Lemma factory_agg_value factory_data (i : nat) p :
  (i < 181)%nat → p ∈ products →
  value (factory_agg today products factory_data) i p
  = inbound factory_data (start_date today + Z.of_nat i) p.
Proof.
  intros Hi Hp. unfold factory_agg, inbound.
  set (d := start_date today + Z.of_nat i).
  assert (Hf : filter (λ r, (Factory.eta_FLTC r, Factory.Part_No r) = (d, p))
                 (filter (λ r, Factory.Part_No r ∈ products) factory_data)
               = filter (λ r, Factory.eta_FLTC r = d ∧ Factory.Part_No r = p) factory_data).
  { rewrite list_filter_filter. apply list_filter_iff. intros r. split.
    - intros [[= -> ->] _]. done.
    - intros [-> ->]. done. }
  destruct (filter (λ r, Factory.Part_No r ∈ products) factory_data) as [|r0 valid] eqn:E.
  - rewrite full_frame_value. rewrite <- Hf. done.
  - rewrite unstack_reindex_value by done. fold d.
    rewrite (groupby_sum_lookup (λ r, (Factory.eta_FLTC r, Factory.Part_No r)) Factory.Qty).
    by rewrite Hf.
Qed.

Lemma order_agg_index order_data : index (order_agg today products order_data) = dr.
Proof. unfold order_agg. by destruct order_data. Qed.

Lemma order_agg_columns order_data p :
  p ∈ products → is_Some (data (order_agg today products order_data) !! p).
Proof.
  intros Hp. unfold order_agg. destruct order_data.
  - rewrite full_frame_data, decide_True by done. eauto.
  - rewrite unstack_reindex_data, decide_True by done. eauto.
Qed.

Lemma order_agg_value order_data (i : nat) p :
  (i < 181)%nat → p ∈ products →
  value (order_agg today products (filter_orders (start_date today) order_data)) i p
  = outbound (start_date today) order_data (start_date today + Z.of_nat i) p.
Proof.
  intros Hi Hp. unfold order_agg, outbound.
  set (d := start_date today + Z.of_nat i).
  set (kept := filter_orders (start_date today) order_data).
  assert (Hf : filter (λ r, (Order.Shipment_Date r, Order.Product_Name r) = (d, p)) kept
               = filter (λ r, Order.Shipment_Date r = d ∧ Order.Product_Name r = p) kept).
  { apply list_filter_iff. intros r. split.
    - intros [= -> ->]. done.
    - intros [-> ->]. done. }
  destruct kept as [|r0 rest] eqn:E.
  - by rewrite full_frame_value.
  - rewrite unstack_reindex_value by done. fold d.
    rewrite (groupby_sum_lookup (λ r, (Order.Shipment_Date r, Order.Product_Name r))
               Order.Quantity).
    by rewrite Hf.
Qed.
End aggregates.

(** * The starting stock *)

Lemma elem_of_unique (l : list string) p : p ∈ unique l ↔ p ∈ l.
Proof.
  induction l as [|x l IH]; [done|]. cbn [unique].
  rewrite !elem_of_cons, list_elem_of_filter, IH.
  destruct (decide (p = x)); intuition.
Qed.

Lemma float_guarded c :
  default 0 (if notna c then float c else Some 0) = qty_or_zero c.
Proof. by destruct c. Qed.

Lemma head_filter_drop_duplicates (rows : list Product.row) p :
  head (filter (λ r, Product.Part_No r = p) (drop_duplicates rows))
  = head (filter (λ r, Product.Part_No r = p) rows).
Proof.
  induction rows as [|r rows IH]; [done|]. cbn [drop_duplicates].
  rewrite !filter_cons. destruct (decide (Product.Part_No r = p)) as [Hr|Hr]; [done|].
  rewrite list_filter_filter, <- IH. f_equal.
  apply list_filter_iff. intros r'. split; [tauto|]. intros <-. split; [done|congruence].
Qed.

Lemma initial_qty_clean (product_data : list Product.row) p :
  initial_qty (drop_duplicates (dropna product_data)) p = starting_quantity product_data p.
Proof.
  unfold initial_qty, starting_quantity.
  pose proof (head_filter_drop_duplicates (dropna product_data) p) as Hh.
  unfold dropna in Hh at 2. rewrite list_filter_filter in Hh. rewrite <- Hh.
  destruct (filter _ (drop_duplicates _)) as [|r rest]; [done|]. simpl.
  apply float_guarded.
Qed.

Lemma set_initial_set_at start clean inventory product :
  set_initial start clean inventory product
  = set_at inventory start product (initial_qty clean product).
Proof.
  unfold set_initial, initial_qty.
  destruct (filter _ clean) as [|r rest]; [done|]. simpl.
  by destruct (if notna _ then _ else _).
Qed.

Lemma foldl_set_initial start clean (l : list string) (df : DataFrame) i p :
  get_loc (index df) start = Some i →
  index (foldl (set_initial start clean) df l) = index df
  ∧ data (foldl (set_initial start clean) df l) !! p
    = if decide (p ∈ l)
      then (λ c : list Z, <[i := initial_qty clean p]> c) <$> data df !! p
      else data df !! p.
Proof.
  revert df. induction l as [|x l IH]; intros df Hloc.
  - split; [done|]. by rewrite decide_False by (intros H; inversion H).
  - cbn [foldl]. rewrite set_initial_set_at.
    assert (Hidx : index (set_at df start x (initial_qty clean x)) = index df)
      by apply set_at_index.
    destruct (IH (set_at df start x (initial_qty clean x))) as [-> ->];
      [by rewrite Hidx|].
    split; [done|].
    unfold set_at. rewrite Hloc. simpl. rewrite lookup_alter.
    rewrite (decide_ext (p ∈ x :: l) (p = x ∨ p ∈ l)) by apply elem_of_cons.
    destruct (decide (x = p)) as [->|Hne].
    + rewrite (decide_True (P := p = p ∨ p ∈ l)) by auto.
      destruct (decide (p ∈ l)); [|done].
      destruct (data df !! p); [|done]. simpl. by rewrite list_insert_insert_eq.
    + destruct (decide (p ∈ l)).
      * by rewrite decide_True by auto.
      * by rewrite decide_False by (intros [?|?]; congruence).
Qed.

Section initial_inventory_facts.
Context (today : date) (product_data : list Product.row).
Let products := products_of product_data.
Let inv0 := initial_inventory today product_data.

Lemma start_date_loc : get_loc (date_range today) (start_date today) = Some 0%nat.
Proof.
  apply get_loc_lookup; [apply date_range_NoDup|].
  rewrite date_range_lookup by lia. f_equal. lia.
Qed.

Lemma initial_inventory_index : index inv0 = date_range today.
Proof.
  unfold inv0, initial_inventory.
  by destruct (foldl_set_initial (start_date today)
    (drop_duplicates (dropna product_data)) (products_of product_data)
    (full_frame (date_range today) (products_of product_data) 0) 0 ""
    start_date_loc) as [-> _].
Qed.

Lemma initial_inventory_data p :
  data inv0 !! p
  = if decide (p ∈ products)
    then Some (<[0%nat := starting_quantity product_data p]>
                 (replicate (length (date_range today)) 0))
    else None.
Proof.
  unfold inv0, initial_inventory.
  destruct (foldl_set_initial (start_date today)
    (drop_duplicates (dropna product_data)) (products_of product_data)
    (full_frame (date_range today) (products_of product_data) 0) 0 p
    start_date_loc) as [_ ->].
  rewrite full_frame_data. fold products.
  destruct (decide (p ∈ products)); [|done]. simpl.
  by rewrite initial_qty_clean.
Qed.

Lemma initial_inventory_columns p : is_Some (data inv0 !! p) ↔ p ∈ products.
Proof.
  rewrite initial_inventory_data. destruct (decide (p ∈ products)).
  - split; eauto.
  - split; [by intros [? ?]|done].
Qed.

Lemma initial_inventory_wf : wf inv0.
Proof.
  intros p c. rewrite initial_inventory_data, initial_inventory_index.
  destruct (decide (p ∈ products)); [|done]. intros Hc.
  apply (inj Some) in Hc. subst c.
  by rewrite length_insert, length_replicate.
Qed.

Lemma initial_inventory_value p :
  p ∈ products → value inv0 0 p = starting_quantity product_data p.
Proof.
  intros Hp. unfold value. rewrite initial_inventory_data, decide_True by done.
  cbn [mbind option_bind].
  rewrite list_lookup_insert_eq; [done|].
  rewrite length_replicate, date_range_length. lia.
Qed.
End initial_inventory_facts.

(** * [calculate_inventory] *)

Section calculate_inventory_facts.
Context (today : date) (factory_data : list Factory.row)
        (order_data : list Order.row) (product_data : list Product.row).
Let start := start_date today.
Let products := products_of product_data.
Let f_agg := factory_agg today products factory_data.
Let o_agg := order_agg today products (filter_orders start order_data).
Let inv0 := initial_inventory today product_data.
Let inventory := calculate_inventory today factory_data order_data product_data.

Local Ltac roll_side :=
  first
    [ apply date_range_NoDup
    | apply factory_agg_index
    | apply order_agg_index
    | apply initial_inventory_index
    | apply initial_inventory_wf
    | let H := fresh in
      intros ? H; apply factory_agg_columns;
      apply initial_inventory_columns in H; exact H
    | let H := fresh in
      intros ? H; apply order_agg_columns;
      apply initial_inventory_columns in H; exact H ].

Lemma calculate_inventory_index : index inventory = date_range today.
Proof. apply roll_forward_index; roll_side. Qed.

Lemma calculate_inventory_columns p : is_Some (data inventory !! p) ↔ p ∈ products.
Proof.
  unfold inventory, calculate_inventory.
  rewrite roll_forward_columns by roll_side.
  apply initial_inventory_columns.
Qed.

Lemma calculate_inventory_balance (i : nat) p :
  (i < 181)%nat → p ∈ products →
  balance inventory (start + Z.of_nat i) p = Some (rolled f_agg o_agg inv0 i p).
Proof.
  intros Hi Hp. apply roll_forward_balance; try roll_side.
  - by apply date_range_lookup.
  - by apply initial_inventory_columns.
Qed.

Lemma rolled_first p :
  p ∈ products →
  rolled f_agg o_agg inv0 0 p
  = starting_quantity product_data p + inbound factory_data start p
    - outbound start order_data start p.
Proof.
  intros Hp. cbn [rolled]. unfold f_agg, o_agg, inv0.
  rewrite initial_inventory_value, factory_agg_value, order_agg_value by (done || lia).
  unfold start. by rewrite Z.add_0_r.
Qed.

Lemma rolled_next (j : nat) p :
  (S j < 181)%nat → p ∈ products →
  rolled f_agg o_agg inv0 (S j) p
  = rolled f_agg o_agg inv0 j p + inbound factory_data (start + Z.of_nat (S j)) p
    - outbound start order_data (start + Z.of_nat (S j)) p.
Proof.
  intros Hj Hp. cbn [rolled]. unfold f_agg, o_agg.
  by rewrite factory_agg_value, order_agg_value by done.
Qed.
End calculate_inventory_facts.

Lemma Zsum_app (a b : list Z) : Zsum (a ++ b) = Zsum a + Zsum b.
Proof. unfold Zsum. induction a as [|x a IH]; simpl; lia. Qed.

Lemma filter_orders_app start (l1 l2 : list Order.row) :
  filter_orders start (l1 ++ l2) = filter_orders start l1 ++ filter_orders start l2.
Proof. apply filter_app. Qed.

Lemma filter_orders_dropped start (r : Order.row) :
  (∃ s, Order.Quotation_status r = Some s ∧ s ∈ excluded_statuses)
  ∨ Order.Shipment_Date r < start →
  filter_orders start [r] = [].
Proof.
  intros H. unfold filter_orders. rewrite filter_cons_False; [done|].
  intros [Hd Hs]. destruct H as [(s & Hst & Hin)|Hlt]; [|lia].
  apply Hs. rewrite Hst. simpl. by apply bool_decide_pack.
Qed.



Section null_status_order.
Context (today : date) (factory_data : list Factory.row)
        (order_data : list Order.row) (product_data : list Product.row)
        (r : Order.row).
Hypothesis status_null : Order.Quotation_status r = None.
Hypothesis in_window : start_date today ≤ Order.Shipment_Date r.

Let start := start_date today.
Let products := products_of product_data.
Let p := Order.Product_Name r.

End null_status_order.

(** * The properties of [calculate_inventory] *)



(** The balance of the first day: the starting quantity with the flows of
    that day applied on top. *)
Lemma first_day_balance today factory_data order_data product_data p :
  p ∈ products_of product_data →
  balance (calculate_inventory today factory_data order_data product_data)
    (start_date today) p
  = Some (starting_quantity product_data p
          + inbound factory_data (start_date today) p
          - outbound (start_date today) order_data (start_date today) p).
Proof.
  intros Hp.
  pose proof (calculate_inventory_balance today factory_data order_data product_data
                0 p) as H.
  rewrite Z.add_0_r in H. rewrite H by (lia || done). by rewrite rolled_first.
Qed.

(** The end-to-end scenario of the specification: parts X and Y, starting
    stock 10 and none, 5 units of X shipped on the third day, a valid order
    of 3 units of Y on the second day. *)
Example end_to_end_scenario :
  (λ d, (balance inventory0 (s0 + d) "X", balance inventory0 (s0 + d) "Y"))
    <$> [0; 1; 2; 3; 180]
  = [ (Some 10, Some 0); (Some 10, Some (-3)); (Some 15, Some (-3));
      (Some 15, Some (-3)); (Some 15, Some (-3)) ].
Proof. vm_compute. reflexivity. Qed.




(** C4. Whatever the inputs, the date axis of the balance matrix is the 181
    consecutive days that start on the first day of the month of the run
    date and end 180 days later. *)
Theorem C4_date_axis today factory_data order_data product_data :
  let idx := index (calculate_inventory today factory_data order_data product_data) in
  idx = seqZ (toordinal {| year := year today; month := month today; day := 1 |}) 181
  ∧ length idx = 181%nat
  ∧ head idx = Some (start_date today)
  ∧ last idx = Some (start_date today + 180)
  ∧ start_date today = toordinal today - (day today - 1).
Proof.
  intros idx. unfold idx. rewrite calculate_inventory_index.
  split; [apply date_range_seqZ|]. split; [apply date_range_length|].
  split; [by rewrite date_range_seqZ, seqZ_cons by lia|].
  split.
  - rewrite date_range_seqZ. change 181 with (Z.of_nat (S 180)).
    rewrite seqZ_S, last_snoc. f_equal.
  - unfold start_date, toordinal, replace_day. simpl. lia.
Qed.

(** C7. An order record whose status is one of quotation, cancel, confirming
    and double cancel, or whose date is before the window start, contributes
    nothing: appending it to any order table leaves the balance matrix as it
    is. *)
Theorem C7_filtered_order_is_inert today factory_data order_data product_data r :
  (∃ s, Order.Quotation_status r = Some s ∧ s ∈ excluded_statuses)
  ∨ Order.Shipment_Date r < start_date today →
  calculate_inventory today factory_data (order_data ++ [r]) product_data
  = calculate_inventory today factory_data order_data product_data.
Proof.
  intros H. unfold calculate_inventory.
  by rewrite filter_orders_app, (filter_orders_dropped _ r H), app_nil_r.
Qed.

Lemma C7_witness :
  ((∃ s, Order.Quotation_status cancelled_order = Some s ∧ s ∈ excluded_statuses)
   ∨ Order.Shipment_Date cancelled_order < start_date today0) ∧
  calculate_inventory today0 factory0 (orders0 ++ [cancelled_order]) products0
  = calculate_inventory today0 factory0 orders0 products0.
Proof.
  assert (H : (∃ s, Order.Quotation_status cancelled_order = Some s
                    ∧ s ∈ excluded_statuses)
              ∨ Order.Shipment_Date cancelled_order < start_date today0).
  { left. exists "cancel"%string. split; [reflexivity|]. unfold excluded_statuses.
    apply list_elem_of_further, list_elem_of_here. }
  split; [exact H|].
  exact (C7_filtered_order_is_inert today0 factory0 orders0 products0 cancelled_order H).
Defined.



(** * Alias resolution: what the steps do to the columns *)

Section step_facts.
Implicit Types (df : DataFrame) (m : gmap string (list Z)).

Lemma exclude_step_data df p : data (exclude_step df p) = delete p (data df).
Proof.
  unfold exclude_step, has_column. case_decide as H; [done|].
  symmetry. apply delete_id. by apply eq_None_not_Some.
Qed.

Lemma exclude_step_index df p : index (exclude_step df p) = index df.
Proof. unfold exclude_step. by case_decide. Qed.

Lemma iadd_index main src df : index (iadd main src df) = index df.
Proof. unfold iadd. by destruct (data df !! main), (data df !! src). Qed.

Lemma rename_index old new df : index (rename old new df) = index df.
Proof. unfold rename. by destruct (data df !! old). Qed.

Lemma assign_index main src df : index (assign main src df) = index df.
Proof. unfold assign. by destruct (data df !! src). Qed.

Lemma one_to_one_step_index df r : index (one_to_one_step df r) = index df.
Proof.
  unfold one_to_one_step, drop. repeat case_decide; simpl;
    by rewrite ?iadd_index, ?rename_index.
Qed.

Lemma many_to_one_step_index main df alias :
  index (many_to_one_step main df alias) = index df.
Proof.
  unfold many_to_one_step, drop. repeat case_decide; simpl;
    by rewrite ?iadd_index, ?assign_index.
Qed.

Lemma one_to_one_step_data df r :
  data (one_to_one_step df r)
  = fold_column (data df) (OneToOne.Free_Part_No r, OneToOne.Main_Part_No r).
Proof.
  unfold one_to_one_step, fold_column, has_column. simpl.
  destruct (data df !! OneToOne.Free_Part_No r) as [cs|] eqn:Ef.
  - rewrite decide_True by eauto.
    destruct (data df !! OneToOne.Main_Part_No r) as [cm|] eqn:Em.
    + rewrite decide_True by eauto. unfold iadd. by rewrite Em, Ef.
    + rewrite decide_False by (by intros [? ?]). unfold rename. rewrite Ef. simpl.
      assert (OneToOne.Free_Part_No r ≠ OneToOne.Main_Part_No r) by congruence.
      by rewrite !delete_insert_ne, delete_delete_eq by done.
  - by rewrite decide_False by (by intros [? ?]).
Qed.

Lemma many_to_one_step_data main df alias :
  data (many_to_one_step main df alias) = fold_column (data df) (alias, main).
Proof.
  unfold many_to_one_step, fold_column, has_column. simpl.
  destruct (data df !! alias) as [cs|] eqn:Ef.
  - rewrite decide_True by eauto.
    destruct (data df !! main) as [cm|] eqn:Em.
    + rewrite decide_True by eauto. unfold iadd. by rewrite Em, Ef.
    + rewrite decide_False by (by intros [? ?]). unfold assign. by rewrite Ef.
  - by rewrite decide_False by (by intros [? ?]).
Qed.

Lemma apply_exclusions_index df ex : index (apply_exclusions df ex) = index df.
Proof.
  unfold apply_exclusions. generalize (excluded_parts ex). intros l.
  revert df. induction l as [|p l IH]; intros df; [done|].
  cbn [foldl]. by rewrite IH, exclude_step_index.
Qed.

Lemma apply_exclusions_data df ex q :
  data (apply_exclusions df ex) !! q
  = if decide (q ∈ excluded_parts ex) then None else data df !! q.
Proof.
  unfold apply_exclusions. generalize (excluded_parts ex). intros l.
  revert df. induction l as [|p l IH]; intros df.
  - by rewrite decide_False by (intros H; inversion H).
  - cbn [foldl]. rewrite IH, exclude_step_data, lookup_delete.
    rewrite (decide_ext (q ∈ p :: l) (q = p ∨ q ∈ l)) by apply elem_of_cons.
    destruct (decide (q ∈ l)).
    + by rewrite decide_True by auto.
    + destruct (decide (p = q)) as [->|Hne].
      * by rewrite decide_True by auto.
      * by rewrite decide_False by (intros [?|?]; congruence).
Qed.

Lemma foldl_one_to_one_data df (l : list OneToOne.row) :
  data (foldl one_to_one_step df l)
  = foldl fold_column (data df)
      ((λ r, (OneToOne.Free_Part_No r, OneToOne.Main_Part_No r)) <$> l).
Proof.
  revert df. induction l as [|r l IH]; intros df; [done|].
  rewrite fmap_cons. cbn [foldl]. by rewrite IH, one_to_one_step_data.
Qed.

Lemma merge_group_data df (g : string * list string) :
  data (merge_group df g) = foldl fold_column (data df) ((λ a, (a, g.1)) <$> g.2).
Proof.
  unfold merge_group. destruct g as [k aliases]. simpl.
  revert df. induction aliases as [|a l IH]; intros df; [done|].
  rewrite fmap_cons. cbn [foldl]. by rewrite IH, many_to_one_step_data.
Qed.

Lemma foldl_merge_group_data df (gs : list (string * list string)) :
  data (foldl merge_group df gs)
  = foldl fold_column (data df) (gs ≫= λ g, (λ a, (a, g.1)) <$> g.2).
Proof.
  revert df. induction gs as [|g gs IH]; intros df; [done|].
  rewrite bind_cons, foldl_app. cbn [foldl]. by rewrite IH, merge_group_data.
Qed.

Lemma export_to_excel_data df ex o2o m2o :
  data (export_to_excel df ex o2o m2o)
  = foldl fold_column (data (apply_exclusions df ex)) (rules_of o2o m2o).
Proof.
  unfold export_to_excel, rules_of.
  by rewrite foldl_merge_group_data, foldl_one_to_one_data, foldl_app.
Qed.

Lemma merge_group_index df g : index (merge_group df g) = index df.
Proof.
  unfold merge_group. generalize (g.2). intros l.
  revert df. induction l as [|a l IH]; intros df; [done|].
  cbn [foldl]. by rewrite IH, many_to_one_step_index.
Qed.

Lemma export_to_excel_index df ex o2o m2o :
  index (export_to_excel df ex o2o m2o) = index df.
Proof.
  unfold export_to_excel.
  assert (Hg : ∀ gs d, index (foldl merge_group d gs) = index d).
  { induction gs as [|g gs IH]; intros d; [done|].
    cbn [foldl]. by rewrite IH, merge_group_index. }
  assert (Ho : ∀ l d, index (foldl one_to_one_step d l) = index d).
  { induction l as [|r l IH]; intros d; [done|].
    cbn [foldl]. by rewrite IH, one_to_one_step_index. }
  by rewrite Hg, Ho, apply_exclusions_index.
Qed.
End step_facts.

Section fold_column_facts.
Implicit Types (m : gmap string (list Z)) (r : string * string)
               (rs : list (string * string)) (q : string).

Lemma fold_column_lookup m r q :
  fold_column m r !! q
  = match m !! r.1 with
    | None => m !! q
    | Some cs =>
        if decide (q = r.1) then None
        else if decide (q = r.2)
             then Some (match m !! r.2 with
                        | Some cm => column_add cm cs
                        | None => cs
                        end)
             else m !! q
    end.
Proof.
  unfold fold_column. destruct (m !! r.1) as [cs|]; [|done].
  rewrite lookup_delete, lookup_insert.
  repeat case_decide; congruence.
Qed.

Lemma fold_column_other m r q :
  q ≠ r.1 → q ≠ r.2 → fold_column m r !! q = m !! q.
Proof.
  intros H1 H2. rewrite fold_column_lookup.
  destruct (m !! r.1); [|done]. by rewrite !decide_False by done.
Qed.

Lemma fold_column_absent m r q :
  m !! q = None → q ≠ r.2 → fold_column m r !! q = None.
Proof.
  intros Hq H2. rewrite fold_column_lookup.
  destruct (m !! r.1); [|done].
  case_decide; [done|]. by rewrite decide_False by done.
Qed.

Lemma fold_column_source m r : fold_column m r !! r.1 = None.
Proof.
  rewrite fold_column_lookup. destruct (m !! r.1) eqn:E; [|done].
  by rewrite decide_True by done.
Qed.

Lemma fold_column_no_source m r : m !! r.1 = None → fold_column m r = m.
Proof. intros H. unfold fold_column. by rewrite H. Qed.

Lemma foldl_fold_column_absent rs m q :
  m !! q = None → q ∉ rs.*2 → foldl fold_column m rs !! q = None.
Proof.
  revert m. induction rs as [|r rs IH]; intros m Hq Hm; [done|].
  rewrite fmap_cons, not_elem_of_cons in Hm. destruct Hm as [Hr Hm].
  cbn [foldl]. apply IH; [|done]. by apply fold_column_absent.
Qed.

Lemma roles_disjoint_tail r rs : roles_disjoint (r :: rs) → roles_disjoint rs.
Proof.
  intros H r' Hr' Hin. apply (H r'); [by right|].
  rewrite fmap_cons. by right.
Qed.

Lemma foldl_fold_column_sources rs m s :
  roles_disjoint rs → s ∈ rs.*1 → foldl fold_column m rs !! s = None.
Proof.
  revert m. induction rs as [|r rs IH]; intros m Hdis Hs; [inversion Hs|].
  cbn [foldl]. rewrite fmap_cons, elem_of_cons in Hs.
  destruct (decide (s ∈ rs.*1)) as [Hin|Hnin].
  - apply IH; [by eapply roles_disjoint_tail|done].
  - destruct Hs as [->|Hs]; [|done].
    apply foldl_fold_column_absent; [apply fold_column_source|].
    intros Hm. apply list_elem_of_fmap in Hm as (r' & Heq & Hr').
    apply (Hdis r'); [by right|]. rewrite <- Heq, fmap_cons. by left.
Qed.
End fold_column_facts.

(** * The rules read off the two tables *)

Lemma elem_of_groupby_main (many_to_one_df : list ManyToOne.row) g :
  g ∈ groupby_main many_to_one_df ↔
  g.1 ∈ ManyToOne.Main_Part_No <$> many_to_one_df
  ∧ g.2 = ManyToOne.Alias_Part_No
            <$> filter (λ r, ManyToOne.Main_Part_No r = g.1) many_to_one_df.
Proof.
  unfold groupby_main. rewrite list_elem_of_fmap. split.
  - intros (k & -> & Hk). simpl.
    rewrite merge_sort_Permutation, elem_of_unique in Hk. done.
  - intros [Hk Hg]. exists g.1. split.
    + destruct g as [k l]. simpl in *. by rewrite Hg.
    + by rewrite merge_sort_Permutation, elem_of_unique.
Qed.

Lemma elem_of_rules_of o2o m2o (r : string * string) :
  r ∈ rules_of o2o m2o ↔
  (∃ row, row ∈ o2o ∧ r = (OneToOne.Free_Part_No row, OneToOne.Main_Part_No row))
  ∨ (∃ row, row ∈ m2o
            ∧ r = (ManyToOne.Alias_Part_No row, ManyToOne.Main_Part_No row)).
Proof.
  unfold rules_of. rewrite elem_of_app, list_elem_of_fmap, list_elem_of_bind.
  apply Morphisms_Prop.or_iff_morphism;
    [split; [intros (row & -> & H)|intros (row & H & ->)]; eauto|].
  split.
  - intros (g & Hr & Hg). apply elem_of_groupby_main in Hg as [_ Hg].
    rewrite Hg in Hr. apply list_elem_of_fmap in Hr as (a & -> & Ha).
    apply list_elem_of_fmap in Ha as (row & -> & Hrow).
    apply list_elem_of_filter in Hrow as [<- Hrow]. eauto.
  - intros (row & Hrow & ->).
    exists (ManyToOne.Main_Part_No row,
            ManyToOne.Alias_Part_No
              <$> filter (λ r, ManyToOne.Main_Part_No r = ManyToOne.Main_Part_No row) m2o).
    split.
    + simpl. apply list_elem_of_fmap. eexists; split; [reflexivity|].
      apply list_elem_of_fmap. exists row. split; [done|].
      apply list_elem_of_filter. done.
    + apply elem_of_groupby_main. simpl. split; [|done].
      by apply list_elem_of_fmap_2.
Qed.

Lemma mains_of_rules o2o m2o x :
  x ∈ (rules_of o2o m2o).*2 ↔
  x ∈ OneToOne.Main_Part_No <$> o2o ∨ x ∈ ManyToOne.Main_Part_No <$> m2o.
Proof.
  rewrite !list_elem_of_fmap. setoid_rewrite elem_of_rules_of. split.
  - intros (r & -> & [(row & Hrow & ->)|(row & Hrow & ->)]); simpl; eauto.
  - intros [(row & -> & Hrow)|(row & -> & Hrow)].
    + exists (OneToOne.Free_Part_No row, OneToOne.Main_Part_No row). eauto.
    + exists (ManyToOne.Alias_Part_No row, ManyToOne.Main_Part_No row). eauto 6.
Qed.

Lemma sources_of_rules o2o m2o x :
  x ∈ (rules_of o2o m2o).*1 ↔
  x ∈ OneToOne.Free_Part_No <$> o2o ∨ x ∈ ManyToOne.Alias_Part_No <$> m2o.
Proof.
  rewrite !list_elem_of_fmap. setoid_rewrite elem_of_rules_of. split.
  - intros (r & -> & [(row & Hrow & ->)|(row & Hrow & ->)]); simpl; eauto.
  - intros [(row & -> & Hrow)|(row & -> & Hrow)].
    + exists (OneToOne.Free_Part_No row, OneToOne.Main_Part_No row). eauto.
    + exists (ManyToOne.Alias_Part_No row, ManyToOne.Main_Part_No row). eauto 6.
Qed.

(** * The properties of the alias resolution *)

(** The groups come in ascending order of the main part, the aliases of a
    group in table order. *)
Example groupby_main_order :
  groupby_main
    [ {| ManyToOne.Main_Part_No := "b"; ManyToOne.Alias_Part_No := "x" |};
      {| ManyToOne.Main_Part_No := "a"; ManyToOne.Alias_Part_No := "y" |};
      {| ManyToOne.Main_Part_No := "b"; ManyToOne.Alias_Part_No := "z" |} ]%string
  = [ ("a", ["y"]); ("b", ["x"; "z"]) ]%string.
Proof. vm_compute. reflexivity. Qed.

(** C2 (as amended). Right after the exclusion step no excluded part is a
    column, and the resolved matrix has no column for an excluded part that
    no one-to-one or many-to-one rule names as its main part. *)
Theorem C2_excluded_columns inventory excluded_df one_to_one_df many_to_one_df p :
  p ∈ excluded_parts excluded_df →
  p ∉ OneToOne.Main_Part_No <$> one_to_one_df →
  p ∉ ManyToOne.Main_Part_No <$> many_to_one_df →
  ¬ has_column (apply_exclusions inventory excluded_df) p
  ∧ ¬ has_column (export_to_excel inventory excluded_df one_to_one_df many_to_one_df) p.
Proof.
  intros Hex Ho Hm.
  assert (Hgone : data (apply_exclusions inventory excluded_df) !! p = None)
    by (by rewrite apply_exclusions_data, decide_True by done).
  unfold has_column. split.
  - rewrite Hgone. by intros [? ?].
  - rewrite export_to_excel_data, foldl_fold_column_absent; [by intros [? ?]|done|].
    rewrite mains_of_rules. tauto.
Qed.

Lemma C2_witness :
  "Z"%string ∈ excluded_parts [Some "Z"%string; None] ∧
  ¬ has_column (export_to_excel matrix0 [Some "Z"%string; None]
                  [rule_F_to_M] [alias_B_of_M]) "Z".
Proof.
  assert (H1 : "Z"%string ∈ excluded_parts [Some "Z"%string; None])
    by (simpl; constructor).
  assert (H2 : "Z"%string ∉ OneToOne.Main_Part_No <$> [rule_F_to_M]).
  { simpl. intros H. inversion H as [|? ? ? H']; subst. inversion H'. }
  assert (H3 : "Z"%string ∉ ManyToOne.Main_Part_No <$> [alias_B_of_M]).
  { simpl. intros H. inversion H as [|? ? ? H']; subst. inversion H'. }
  split; [exact H1|].
  exact (proj2 (C2_excluded_columns matrix0 [Some "Z"%string; None]
                  [rule_F_to_M] [alias_B_of_M] "Z" H1 H2 H3)).
Defined.

(** C2 as stated fails: with Z excluded and the one-to-one rule (F, Z), the
    column F is renamed to Z after Z was dropped. *)
Lemma C2_counterexample :
  ¬ (∀ inventory excluded_df one_to_one_df many_to_one_df p,
       p ∈ excluded_parts excluded_df →
       ¬ has_column (export_to_excel inventory excluded_df one_to_one_df many_to_one_df) p).
Proof.
  intros H.
  apply (H matrix0 [Some "Z"%string] [rule_F_to_Z] [] "Z"%string).
  - simpl. constructor.
  - vm_compute. eauto.
Qed.

(** C8. A one-to-one rule (free, main) met with the free column present and
    the main column absent leaves a column named main that holds the old
    free column unchanged and no column named free, every other column and
    the date axis being as before; with the free column absent the rule
    changes nothing. *)
Theorem C8_one_to_one_rename inventory row :
  (∀ c, data inventory !! OneToOne.Free_Part_No row = Some c →
        data inventory !! OneToOne.Main_Part_No row = None →
        data (one_to_one_step inventory row) !! OneToOne.Main_Part_No row = Some c
        ∧ data (one_to_one_step inventory row) !! OneToOne.Free_Part_No row = None
        ∧ index (one_to_one_step inventory row) = index inventory
        ∧ ∀ q, q ≠ OneToOne.Free_Part_No row → q ≠ OneToOne.Main_Part_No row →
               data (one_to_one_step inventory row) !! q = data inventory !! q)
  ∧ (data inventory !! OneToOne.Free_Part_No row = None →
     one_to_one_step inventory row = inventory).
Proof.
  split.
  - intros c Hf Hm.
    assert (Hne : OneToOne.Main_Part_No row ≠ OneToOne.Free_Part_No row) by congruence.
    rewrite one_to_one_step_index. rewrite !one_to_one_step_data.
    split; [|split; [apply (fold_column_source _ (_, _))|split; [done|]]].
    + rewrite fold_column_lookup. simpl. rewrite Hf, Hm.
      by rewrite decide_False, decide_True by done.
    + intros q H1 H2. by apply fold_column_other.
  - intros Hf. unfold one_to_one_step, has_column.
    rewrite decide_False; [done|]. rewrite Hf. by intros [? ?].
Qed.

Lemma C8_witness :
  data (one_to_one_step matrix0 rule_F_to_N) !! "N"%string = Some [1; 2]
  ∧ data (one_to_one_step matrix0 rule_F_to_N) !! "F"%string = None.
Proof.
  assert (H1 : data matrix0 !! OneToOne.Free_Part_No rule_F_to_N = Some [1; 2])
    by reflexivity.
  assert (H2 : data matrix0 !! OneToOne.Main_Part_No rule_F_to_N = None)
    by reflexivity.
  pose proof (proj1 (C8_one_to_one_rename matrix0 rule_F_to_N) [1; 2] H1 H2)
    as (Hm & Hf & _).
  exact (conj Hm Hf).
Defined.

(** C9. A one-to-one rule whose free part is its main part, met with that
    column present, adds the column to itself and then drops it under the
    shared name: the column is gone from the matrix, the others are
    untouched. *)
Theorem C9_self_rule_drops_column inventory row c :
  OneToOne.Free_Part_No row = OneToOne.Main_Part_No row →
  data inventory !! OneToOne.Free_Part_No row = Some c →
  one_to_one_step inventory row
  = drop (OneToOne.Free_Part_No row)
      (iadd (OneToOne.Main_Part_No row) (OneToOne.Free_Part_No row) inventory)
  ∧ data (iadd (OneToOne.Main_Part_No row) (OneToOne.Free_Part_No row) inventory)
      !! OneToOne.Free_Part_No row = Some (column_add c c)
  ∧ ¬ has_column (one_to_one_step inventory row) (OneToOne.Free_Part_No row)
  ∧ ∀ q, q ≠ OneToOne.Free_Part_No row →
         data (one_to_one_step inventory row) !! q = data inventory !! q.
Proof.
  intros Heq Hc. split; [|split; [|split]].
  - unfold one_to_one_step. rewrite <- Heq.
    by rewrite !decide_True by (unfold has_column; eauto).
  - rewrite <- Heq. unfold iadd. rewrite Hc. simpl. apply lookup_insert_eq.
  - unfold has_column. rewrite one_to_one_step_data.
    pose proof (fold_column_source (data inventory)
                  (OneToOne.Free_Part_No row, OneToOne.Main_Part_No row)) as Hs.
    simpl in Hs. rewrite Hs. by intros [? ?].
  - intros q Hq. rewrite one_to_one_step_data.
    apply fold_column_other; simpl; congruence.
Qed.

Lemma C9_witness :
  OneToOne.Free_Part_No rule_M_to_M = OneToOne.Main_Part_No rule_M_to_M ∧
  data matrix0 !! OneToOne.Free_Part_No rule_M_to_M = Some [10; 20] ∧
  ¬ has_column (one_to_one_step matrix0 rule_M_to_M) (OneToOne.Free_Part_No rule_M_to_M).
Proof.
  assert (H1 : OneToOne.Free_Part_No rule_M_to_M = OneToOne.Main_Part_No rule_M_to_M)
    by reflexivity.
  assert (H2 : data matrix0 !! OneToOne.Free_Part_No rule_M_to_M = Some [10; 20])
    by reflexivity.
  split; [exact H1|]. split; [exact H2|].
  exact (proj1 (proj2 (proj2 (C9_self_rule_drops_column matrix0 rule_M_to_M [10; 20] H1 H2)))).
Defined.

(** ** Order of the aliases of one group *)

Lemma frame_eq (a b : DataFrame) : index a = index b → data a = data b → a = b.
Proof. destruct a, b. simpl. by intros -> ->. Qed.









(** ** The column of a main part is the sum of what is folded into it *)

Section resolution_sum.
Implicit Types (m : gmap string (list Z)) (r : string * string)
               (rs : list (string * string)).












(** At every date: a position of the sum holds the sum of the values the
    columns hold there. *)
Lemma foldl_column_add_lookup (cs : list (list Z)) (c : list Z) (i : nat) x :
  c !! i = Some x → Forall (λ c', is_Some (c' !! i)) cs →
  foldl column_add c cs !! i
  = Some (x + Zsum ((λ c', default 0 (c' !! i)) <$> cs)).
Proof.
  revert c x. induction cs as [|c' cs IH]; intros c x Hc Hall.
  - simpl. rewrite Hc. f_equal. unfold Zsum. simpl. lia.
  - apply Forall_cons in Hall as [[y Hy] Hall]. cbn [foldl].
    rewrite (IH _ (x + y));
      [|unfold column_add; by rewrite lookup_zip_with, Hc, Hy|done].
    rewrite fmap_cons, Hy. unfold Zsum. simpl. f_equal. lia.
Qed.
End resolution_sum.

Lemma roles_disjoint_tables o2o m2o :
  (∀ x, x ∈ OneToOne.Main_Part_No <$> o2o ∨ x ∈ ManyToOne.Main_Part_No <$> m2o →
        (x ∉ OneToOne.Free_Part_No <$> o2o) ∧ (x ∉ ManyToOne.Alias_Part_No <$> m2o)) →
  roles_disjoint (rules_of o2o m2o).
Proof.
  intros H r Hr. rewrite sources_of_rules.
  destruct (H r.2) as [H1 H2]; [|tauto].
  apply mains_of_rules. by apply list_elem_of_fmap_2.
Qed.



(** On that input the column M ends as M + F + B. *)
Example resolved_M :
  data (export_to_excel matrix0 [Some "Z"%string] [rule_F_to_M] [alias_B_of_M]) !! "M"%string
  = Some [14; 26].
Proof. reflexivity. Qed.


(** It also fails when the main part is excluded: the exclusion drops M's
    own column before F is renamed to M. *)
Lemma C6_counterexample_excluded :
  data (export_to_excel matrix0 [Some "M"%string] [rule_F_to_M] []) !! "M"%string
  = Some [1; 2]
  ∧ column_sum (data matrix0 !! "M"%string)
      (contributions (data matrix0) (rules_of [rule_F_to_M] []) "M")
    = Some [11; 22].
Proof. split; reflexivity. Qed.


(** * Further properties of [calculate_inventory] *)

(** ** The aggregates as dense tables of the per-key sums *)

Lemma fmap_ext_elem_of {A B} (f g : A → B) (l : list A) :
  (∀ x, x ∈ l → f x = g x) → f <$> l = g <$> l.
Proof.
  intros H. apply list_fmap_ext. intros i x Hx. apply H.
  by eapply list_elem_of_lookup_2.
Qed.

Lemma agg_frame_ext (dr : list Z) (products : list string) (F G : Z → string → Z) :
  (∀ p d, p ∈ products → d ∈ dr → F d p = G d p) →
  agg_frame dr products F = agg_frame dr products G.
Proof.
  intros H. unfold agg_frame. f_equal. f_equal.
  apply fmap_ext_elem_of. intros p Hp. f_equal.
  apply fmap_ext_elem_of. intros d Hd. by apply H.
Qed.

Lemma inbound_valid (products : list string) factory_data d p :
  p ∈ products →
  Zsum (Factory.Qty <$>
        filter (λ r, (Factory.eta_FLTC r, Factory.Part_No r) = (d, p))
          (filter (λ r, Factory.Part_No r ∈ products) factory_data))
  = inbound factory_data d p.
Proof.
  intros Hp. unfold inbound. rewrite list_filter_filter. do 2 f_equal.
  apply list_filter_iff. intros r. split.
  - by intros [[= -> ->] _].
  - by intros [-> ->].
Qed.

Lemma factory_agg_normal today products factory_data :
  factory_agg today products factory_data
  = agg_frame (date_range today) products (inbound factory_data).
Proof.
  unfold factory_agg, agg_frame.
  destruct (filter (λ r, Factory.Part_No r ∈ products) factory_data)
    as [|r0 valid] eqn:E.
  - unfold full_frame. f_equal. f_equal.
    apply fmap_ext_elem_of. intros p Hp. f_equal.
    symmetry. apply const_fmap. intros i d _.
    rewrite <- (inbound_valid products) by done. by rewrite E.
  - unfold unstack_reindex. f_equal. f_equal.
    apply fmap_ext_elem_of. intros p Hp. f_equal.
    apply fmap_ext_elem_of. intros d _.
    rewrite (groupby_sum_lookup (λ r, (Factory.eta_FLTC r, Factory.Part_No r))
               Factory.Qty).
    rewrite <- E. by apply inbound_valid.
Qed.

Lemma order_agg_normal today products order_data :
  order_agg today products (filter_orders (start_date today) order_data)
  = agg_frame (date_range today) products (outbound (start_date today) order_data).
Proof.
  unfold order_agg, agg_frame, outbound.
  set (kept := filter_orders (start_date today) order_data).
  assert (Hf : ∀ d p,
    filter (λ r, (Order.Shipment_Date r, Order.Product_Name r) = (d, p)) kept
    = filter (λ r, Order.Shipment_Date r = d ∧ Order.Product_Name r = p) kept).
  { intros d p. apply list_filter_iff. intros r. split.
    - by intros [= -> ->].
    - by intros [-> ->]. }
  destruct kept as [|r0 rest] eqn:E.
  - unfold full_frame. f_equal. f_equal.
    apply fmap_ext_elem_of. intros p Hp. f_equal.
    symmetry. apply const_fmap. by intros i d _.
  - unfold unstack_reindex. f_equal. f_equal.
    apply fmap_ext_elem_of. intros p Hp. f_equal.
    apply fmap_ext_elem_of. intros d _.
    rewrite (groupby_sum_lookup (λ r, (Order.Shipment_Date r, Order.Product_Name r))
               Order.Quantity).
    by rewrite Hf.
Qed.

Lemma calculate_inventory_normal today factory_data order_data product_data :
  calculate_inventory today factory_data order_data product_data
  = roll_forward (date_range today)
      (agg_frame (date_range today) (products_of product_data) (inbound factory_data))
      (agg_frame (date_range today) (products_of product_data)
         (outbound (start_date today) order_data))
      (initial_inventory today product_data).
Proof.
  unfold calculate_inventory. by rewrite factory_agg_normal, order_agg_normal.
Qed.

(** The result depends on the two tables only through the sums per date
    of the window and known part. *)
Lemma calculate_inventory_ext today f1 f2 o1 o2 product_data :
  (∀ p d, p ∈ products_of product_data → d ∈ date_range today →
          inbound f1 d p = inbound f2 d p) →
  (∀ p d, p ∈ products_of product_data → d ∈ date_range today →
          outbound (start_date today) o1 d p = outbound (start_date today) o2 d p) →
  calculate_inventory today f1 o1 product_data
  = calculate_inventory today f2 o2 product_data.
Proof.
  intros Hin Hout. rewrite !calculate_inventory_normal.
  by rewrite (agg_frame_ext _ _ _ _ Hin), (agg_frame_ext _ _ _ _ Hout).
Qed.

Lemma elem_of_date_range today d :
  d ∈ date_range today ↔ start_date today ≤ d ≤ end_date today.
Proof. rewrite date_range_seqZ, elem_of_seqZ. unfold end_date. lia. Qed.

Lemma inbound_app f1 f2 d p : inbound (f1 ++ f2) d p = inbound f1 d p + inbound f2 d p.
Proof. unfold inbound. by rewrite filter_app, fmap_app, Zsum_app. Qed.

Lemma outbound_app start o1 o2 d p :
  outbound start (o1 ++ o2) d p = outbound start o1 d p + outbound start o2 d p.
Proof.
  unfold outbound. by rewrite filter_orders_app, filter_app, fmap_app, Zsum_app.
Qed.

Lemma inbound_single r d p :
  inbound [r] d p
  = if decide (Factory.eta_FLTC r = d ∧ Factory.Part_No r = p)
    then Factory.Qty r else 0.
Proof.
  unfold inbound. rewrite filter_cons.
  destruct (decide (Factory.eta_FLTC r = d ∧ Factory.Part_No r = p)); [|done].
  unfold Zsum. simpl. lia.
Qed.

Lemma outbound_single start r d p :
  survives start r →
  outbound start [r] d p
  = if decide (Order.Shipment_Date r = d ∧ Order.Product_Name r = p)
    then Order.Quantity r else 0.
Proof.
  intros Hs. unfold outbound, filter_orders.
  rewrite (filter_cons_True _ r []) by exact Hs. rewrite filter_nil, filter_cons.
  destruct (decide (Order.Shipment_Date r = d ∧ Order.Product_Name r = p)); [|done].
  unfold Zsum. simpl. lia.
Qed.


(** ** Sums over the days of the window *)

Lemma Zsum_Permutation (l l' : list Z) : l ≡ₚ l' → Zsum l = Zsum l'.
Proof.
  unfold Zsum. induction 1 as [|x l l' _ IH|x y l|l l' l'' _ IH1 _ IH2]; simpl; lia.
Qed.




Lemma get_loc_elem (idx : list Z) d i : get_loc idx d = Some i → d ∈ idx.
Proof.
  unfold get_loc. destruct (list_find _ idx) as [[j y]|] eqn:E; simpl; [|done].
  intros _. apply list_find_Some in E as (Hj & -> & _).
  by eapply list_elem_of_lookup_2.
Qed.

Lemma rolled_closed today factory_data order_data product_data (i : nat) p :
  (i < 181)%nat → p ∈ products_of product_data →
  rolled (factory_agg today (products_of product_data) factory_data)
    (order_agg today (products_of product_data)
       (filter_orders (start_date today) order_data))
    (initial_inventory today product_data) i p
  = starting_quantity product_data p
    + Zsum ((λ d', inbound factory_data d' p
                   - outbound (start_date today) order_data d' p)
              <$> seqZ (start_date today) (Z.of_nat (S i))).
Proof.
  intros Hi Hp. induction i as [|j IH].
  - rewrite rolled_first by done.
    change (Z.of_nat 1) with 1. rewrite seqZ_cons, seqZ_nil by lia.
    unfold Zsum. simpl. lia.
  - rewrite rolled_next, IH by (done || lia).
    rewrite (seqZ_S _ (S j)), fmap_app, Zsum_app. unfold Zsum. simpl. lia.
Qed.

Lemma net_flow_position start factory_data order_data (i : nat) p :
  net_flow start factory_data order_data (start + Z.of_nat i) p
  = Zsum ((λ d', inbound factory_data d' p - outbound start order_data d' p)
            <$> seqZ start (Z.of_nat (S i))).
Proof. unfold net_flow. do 3 f_equal. lia. Qed.

Lemma balance_position today factory_data order_data product_data (i : nat) p :
  (i < 181)%nat → p ∈ products_of product_data →
  balance (calculate_inventory today factory_data order_data product_data)
    (start_date today + Z.of_nat i) p
  = Some (starting_quantity product_data p
          + net_flow (start_date today) factory_data order_data
              (start_date today + Z.of_nat i) p).
Proof.
  intros Hi Hp. rewrite calculate_inventory_balance by done.
  by rewrite rolled_closed, net_flow_position by done.
Qed.

(** A date of the window is the start plus a position below 181. *)
Lemma window_position today d :
  start_date today ≤ d ≤ end_date today →
  ∃ i : nat, (i < 181)%nat ∧ d = start_date today + Z.of_nat i.
Proof.
  unfold end_date. intros Hd. exists (Z.to_nat (d - start_date today)). lia.
Qed.



(** X2. The balance matrix is dense and nothing more: it has a cell for a
    date and a part exactly when the date lies in the window and the part
    is known, whatever the shipments and orders. *)
Theorem balance_defined_iff today factory_data order_data product_data d p :
  is_Some (balance (calculate_inventory today factory_data order_data product_data) d p)
  ↔ start_date today ≤ d ≤ end_date today ∧ p ∈ products_of product_data.
Proof.
  split.
  - intros [b Hb]. unfold balance, loc in Hb.
    destruct (get_loc _ d) as [i|] eqn:Hloc; [|by rewrite lookup_empty in Hb].
    split.
    + apply get_loc_elem in Hloc. rewrite calculate_inventory_index in Hloc.
      by apply elem_of_date_range.
    + rewrite lookup_fmap in Hb.
      apply (proj1 (calculate_inventory_columns today factory_data order_data
                      product_data p)).
      destruct (data _ !! p); [eauto|done].
  - intros [Hd Hp]. destruct (window_position today d Hd) as (i & Hi & ->).
    rewrite balance_position by done. eauto.
Qed.






(** X4. A shipment record for a part that is not known, or dated before
    the window start or after its end, changes nothing: the matrix computed
    with the record appended is the matrix computed without it.  A shipment
    that arrived before the window is in particular not added to the
    starting stock. *)
Theorem shipment_outside_is_inert today factory_data order_data product_data r :
  Factory.Part_No r ∉ products_of product_data
  ∨ Factory.eta_FLTC r < start_date today
  ∨ end_date today < Factory.eta_FLTC r →
  calculate_inventory today (factory_data ++ [r]) order_data product_data
  = calculate_inventory today factory_data order_data product_data.
Proof.
  intros H. apply calculate_inventory_ext; [|done].
  intros p d Hp Hd. apply elem_of_date_range in Hd.
  rewrite inbound_app, inbound_single.
  rewrite decide_False; [lia|]. intros [He Hpn].
  destruct H as [H|[H|H]]; [apply H; by rewrite Hpn|lia|lia].
Qed.

Lemma shipment_outside_is_inert_witness :
  calculate_inventory today0 (factory0 ++ [shipment_of_unknown_part]) orders0 products0
  = calculate_inventory today0 factory0 orders0 products0.
Proof.
  assert (H : Factory.Part_No shipment_of_unknown_part ∉ products_of products0
              ∨ Factory.eta_FLTC shipment_of_unknown_part < start_date today0
              ∨ end_date today0 < Factory.eta_FLTC shipment_of_unknown_part).
  { left. vm_compute. intros H. inversion H as [|? ? ? H']; subst.
    inversion H' as [|? ? ? H'']; subst. inversion H''. }
  exact (shipment_outside_is_inert today0 factory0 orders0 products0
           shipment_of_unknown_part H).
Defined.

Lemma outbound_single_any start r d p :
  outbound start [r] d p
  = if decide (survives start r
               ∧ Order.Shipment_Date r = d ∧ Order.Product_Name r = p)
    then Order.Quantity r else 0.
Proof.
  destruct (decide (survives start r)) as [Hs|Hs].
  - rewrite outbound_single by done.
    destruct (decide (Order.Shipment_Date r = d ∧ Order.Product_Name r = p)).
    + by rewrite decide_True by done.
    + by rewrite decide_False by tauto.
  - rewrite decide_False by tauto. unfold outbound, filter_orders.
    by rewrite (filter_cons_False _ r []) by exact Hs.
Qed.

(** X5. An order record for a part that is not known, or dated after the
    window end, changes nothing whatever its status: the matrix computed
    with the record appended is the matrix computed without it. *)
Theorem order_outside_is_inert today factory_data order_data product_data r :
  Order.Product_Name r ∉ products_of product_data
  ∨ end_date today < Order.Shipment_Date r →
  calculate_inventory today factory_data (order_data ++ [r]) product_data
  = calculate_inventory today factory_data order_data product_data.
Proof.
  intros H. apply calculate_inventory_ext; [done|].
  intros p d Hp Hd. apply elem_of_date_range in Hd.
  rewrite outbound_app, outbound_single_any.
  rewrite decide_False; [lia|]. intros (_ & He & Hpn).
  destruct H as [H|H]; [apply H; by rewrite Hpn|lia].
Qed.

Lemma order_outside_is_inert_witness :
  calculate_inventory today0 factory0 (orders0 ++ [order_of_unknown_part]) products0
  = calculate_inventory today0 factory0 orders0 products0.
Proof.
  assert (H : Order.Product_Name order_of_unknown_part ∉ products_of products0
              ∨ end_date today0 < Order.Shipment_Date order_of_unknown_part).
  { left. vm_compute. intros H. inversion H as [|? ? ? H']; subst.
    inversion H' as [|? ? ? H'']; subst. inversion H''. }
  exact (order_outside_is_inert today0 factory0 orders0 products0
           order_of_unknown_part H).
Defined.

Lemma inbound_Permutation f1 f2 d p : f1 ≡ₚ f2 → inbound f1 d p = inbound f2 d p.
Proof. intros H. unfold inbound. apply Zsum_Permutation. by rewrite H. Qed.

Lemma outbound_Permutation start o1 o2 d p :
  o1 ≡ₚ o2 → outbound start o1 d p = outbound start o2 d p.
Proof.
  intros H. unfold outbound, filter_orders. apply Zsum_Permutation. by rewrite H.
Qed.

(** X6. The order of the rows in the shipment table and in the order table
    does not matter: tables that hold the same records in another order
    give the same matrix. *)
Theorem row_order_is_irrelevant today f1 f2 o1 o2 product_data :
  f1 ≡ₚ f2 → o1 ≡ₚ o2 →
  calculate_inventory today f1 o1 product_data
  = calculate_inventory today f2 o2 product_data.
Proof.
  intros Hf Ho. apply calculate_inventory_ext; intros p d _ _.
  - by apply inbound_Permutation.
  - by apply outbound_Permutation.
Qed.

Lemma row_order_is_irrelevant_witness :
  calculate_inventory today0 (shipment_of_X :: factory0)
    (cancelled_order :: orders0) products0
  = calculate_inventory today0 (factory0 ++ [shipment_of_X])
      (orders0 ++ [cancelled_order]) products0.
Proof.
  assert (H1 : shipment_of_X :: factory0 ≡ₚ factory0 ++ [shipment_of_X])
    by apply Permutation_cons_append.
  assert (H2 : cancelled_order :: orders0 ≡ₚ orders0 ++ [cancelled_order])
    by apply Permutation_cons_append.
  exact (row_order_is_irrelevant today0 _ _ _ _ products0 H1 H2).
Defined.

Lemma inbound_shipment_key factory_data d p :
  inbound factory_data d p
  = Zsum ((λ k : string * Z * Z, k.2)
            <$> filter (λ k : string * Z * Z, k.1.2 = d ∧ k.1.1 = p)
                  (shipment_key <$> factory_data)).
Proof.
  unfold inbound. induction factory_data as [|r l IH]; [done|].
  rewrite fmap_cons, !filter_cons. simpl.
  destruct (decide (Factory.eta_FLTC r = d ∧ Factory.Part_No r = p)).
  - rewrite !fmap_cons. unfold Zsum in *. simpl. by rewrite IH.
  - done.
Qed.

(** X7. The status of a shipment record is never consulted: two shipment
    tables whose records agree on part, date and quantity give the same
    matrix, whatever their statuses. *)
Theorem shipment_status_is_ignored today f1 f2 order_data product_data :
  shipment_key <$> f1 = shipment_key <$> f2 →
  calculate_inventory today f1 order_data product_data
  = calculate_inventory today f2 order_data product_data.
Proof.
  intros H. apply calculate_inventory_ext; [|done].
  intros p d _ _. by rewrite !inbound_shipment_key, H.
Qed.

Lemma shipment_status_is_ignored_witness :
  calculate_inventory today0 [shipment_of_X] orders0 products0
  = calculate_inventory today0 [shipment_of_X_no_status] orders0 products0.
Proof.
  assert (H : shipment_key <$> [shipment_of_X]
              = shipment_key <$> [shipment_of_X_no_status]) by reflexivity.
  exact (shipment_status_is_ignored today0 _ _ orders0 products0 H).
Defined.







(** ** Further records for a part that already has a starting quantity *)

Lemma unique_snoc (l : list string) x :
  unique (l ++ [x]) = unique l ++ (if decide (x ∈ l) then [] else [x]).
Proof.
  induction l as [|y l IH]; [done|].
  rewrite <- app_comm_cons. cbn [unique]. rewrite IH, filter_app. f_equal.
  rewrite <- app_comm_cons. f_equal. f_equal.
  rewrite (decide_ext (x ∈ y :: l) (x = y ∨ x ∈ l)) by apply elem_of_cons.
  destruct (decide (x ∈ l)).
  - by rewrite decide_True by auto.
  - rewrite filter_cons, filter_nil. destruct (decide (x = y)) as [->|Hne].
    + rewrite (decide_True (P := _ ∨ _)) by auto.
      by rewrite (decide_False (P := _ ≠ _)) by (by intros ?).
    + rewrite (decide_False (P := _ ∨ _)) by (intros [?|?]; done).
      by rewrite (decide_True (P := _ ≠ _)) by done.
Qed.

Lemma drop_duplicates_snoc (rows : list Product.row) r :
  drop_duplicates (rows ++ [r])
  = drop_duplicates rows
    ++ (if decide (Product.Part_No r ∈ Product.Part_No <$> rows) then [] else [r]).
Proof.
  induction rows as [|y l IH]; [done|].
  rewrite <- app_comm_cons. cbn [drop_duplicates]. rewrite IH, filter_app.
  rewrite <- app_comm_cons. f_equal. f_equal. rewrite fmap_cons.
  rewrite (decide_ext (Product.Part_No r ∈ Product.Part_No y :: (Product.Part_No <$> l))
             (Product.Part_No r = Product.Part_No y
              ∨ Product.Part_No r ∈ Product.Part_No <$> l)) by apply elem_of_cons.
  destruct (decide (Product.Part_No r ∈ Product.Part_No <$> l)).
  - by rewrite decide_True by auto.
  - rewrite filter_cons, filter_nil.
    destruct (decide (Product.Part_No r = Product.Part_No y)) as [Heq|Hne].
    + rewrite (decide_True (P := _ ∨ _)) by auto.
      by rewrite (decide_False (P := _ ≠ _)) by (by intros ?).
    + rewrite (decide_False (P := _ ∨ _)) by (intros [?|?]; done).
      by rewrite (decide_True (P := _ ≠ _)) by done.
Qed.

(** X10. Once a part has a record with a non-null quantity in the product
    table, a further record for that part appended to the table changes
    nothing, whatever quantity it carries: the balance matrix is the same. *)
Theorem later_product_record_is_inert today factory_data order_data product_data r0 r :
  r0 ∈ product_data →
  Product.Part_No r0 = Product.Part_No r →
  notna (Product.Month_End_SAP_Inventory r0) →
  calculate_inventory today factory_data order_data (product_data ++ [r])
  = calculate_inventory today factory_data order_data product_data.
Proof.
  intros Hin Hpart Hna.
  assert (Hprod : products_of (product_data ++ [r]) = products_of product_data).
  { unfold products_of. rewrite fmap_app.
    change (Product.Part_No <$> [r]) with [Product.Part_No r]. rewrite unique_snoc.
    rewrite decide_True, app_nil_r; [done|].
    rewrite <- Hpart. by apply list_elem_of_fmap_2. }
  assert (Hclean : drop_duplicates (dropna (product_data ++ [r]))
                   = drop_duplicates (dropna product_data)).
  { unfold dropna. rewrite filter_app, filter_cons, filter_nil.
    destruct (decide (notna (Product.Month_End_SAP_Inventory r))); [|by rewrite app_nil_r].
    rewrite drop_duplicates_snoc, decide_True, app_nil_r; [done|].
    rewrite <- Hpart. apply list_elem_of_fmap_2. by apply list_elem_of_filter. }
  unfold calculate_inventory, initial_inventory. by rewrite Hprod, Hclean.
Qed.

Lemma later_product_record_is_inert_witness :
  calculate_inventory today0 factory0 orders0 (products0 ++ [later_record_of_X])
  = calculate_inventory today0 factory0 orders0 products0.
Proof.
  assert (H1 : {| Product.Part_No := "X"; Product.Month_End_SAP_Inventory := QNum 10;
                  Product.Model := Some "mx"%string |} ∈ products0)
    by apply list_elem_of_here.
  assert (H3 : notna (QNum 10)) by exact I.
  exact (later_product_record_is_inert today0 factory0 orders0 products0 _
           later_record_of_X H1 eq_refl H3).
Defined.


(** * Further properties of the alias resolution *)

Section resolution_invariants.
Implicit Types (m : gmap string (list Z)) (r : string * string)
               (rs : list (string * string)).



Lemma column_add_length (a b : list Z) n :
  length a = n → length b = n → length (column_add a b) = n.
Proof. intros Ha Hb. unfold column_add. rewrite length_zip_with. lia. Qed.


Lemma fold_column_wf n m r : wf_columns n m → wf_columns n (fold_column m r).
Proof.
  intros Hwf p c. rewrite fold_column_lookup.
  destruct (m !! r.1) as [cs|] eqn:Es; [|apply Hwf].
  case_decide; [done|]. case_decide; [|apply Hwf].
  intros [= <-]. destruct (m !! r.2) as [cm|] eqn:Em.
  - apply column_add_length; by eapply Hwf.
  - by eapply Hwf.
Qed.

Lemma foldl_fold_column_wf n rs m :
  wf_columns n m → wf_columns n (foldl fold_column m rs).
Proof.
  revert m. induction rs as [|r rs IH]; intros m Hwf; [done|].
  cbn [foldl]. by apply IH, fold_column_wf.
Qed.



Lemma size_fold_column m r : (size (fold_column m r) ≤ size m)%nat.
Proof.
  unfold fold_column. destruct (m !! r.1) as [cs|] eqn:Es; [|done].
  rewrite map_size_delete, lookup_insert.
  destruct (decide (r.2 = r.1)) as [Heq|Hne].
  - rewrite map_size_insert. rewrite Heq, Es. simpl. lia.
  - rewrite Es, map_size_insert. destruct (m !! r.2); simpl; lia.
Qed.

Lemma size_foldl_fold_column rs m : (size (foldl fold_column m rs) ≤ size m)%nat.
Proof.
  revert m. induction rs as [|r rs IH]; intros m; [done|].
  cbn [foldl]. etrans; [apply IH|apply size_fold_column].
Qed.

Lemma foldl_fold_column_other rs m q :
  q ∉ rs.*1 → q ∉ rs.*2 → foldl fold_column m rs !! q = m !! q.
Proof.
  revert m. induction rs as [|r rs IH]; intros m H1 H2; [done|].
  rewrite fmap_cons, not_elem_of_cons in H1, H2.
  cbn [foldl]. rewrite IH by tauto. apply fold_column_other; tauto.
Qed.

Lemma foldl_fold_column_no_sources rs m :
  (∀ s, s ∈ rs.*1 → m !! s = None) → foldl fold_column m rs = m.
Proof.
  induction rs as [|r rs IH]; intros H; [done|].
  cbn [foldl]. rewrite fold_column_no_source.
  - apply IH. intros s Hs. apply H. rewrite fmap_cons. by right.
  - apply H. rewrite fmap_cons. by left.
Qed.
End resolution_invariants.

Lemma apply_exclusions_wf inventory excluded_df :
  wf inventory → wf_columns (length (index inventory))
                   (data (apply_exclusions inventory excluded_df)).
Proof.
  intros Hwf p c. rewrite apply_exclusions_data. case_decide; [done|]. apply Hwf.
Qed.



Lemma matrix0_wf : wf matrix0.
Proof.
  intros p c Hc. apply elem_of_list_to_map_2 in Hc.
  repeat (apply elem_of_cons in Hc as [[= -> ->]|Hc]; [reflexivity|]).
  inversion Hc.
Qed.


(** X12. Alias resolution never adds a column: the resolved matrix has at
    most as many columns as the matrix it was given. *)
Theorem resolution_never_adds_columns inventory excluded_df one_to_one_df many_to_one_df :
  (size (data (export_to_excel inventory excluded_df one_to_one_df many_to_one_df))
   ≤ size (data inventory))%nat.
Proof.
  rewrite export_to_excel_data. etrans; [apply size_foldl_fold_column|].
  unfold apply_exclusions. generalize (excluded_parts excluded_df). intros l.
  revert inventory. induction l as [|p l IH]; intros inventory; [done|].
  cbn [foldl]. etrans; [apply IH|].
  rewrite exclude_step_data, map_size_delete. destruct (data inventory !! p); simpl; lia.
Qed.

(** X13. Alias resolution keeps the shape of the matrix: the date axis is
    untouched, and if every column had one value per date before, every
    column of the resolved matrix has one value per date. *)
Theorem resolution_keeps_shape inventory excluded_df one_to_one_df many_to_one_df :
  wf inventory →
  index (export_to_excel inventory excluded_df one_to_one_df many_to_one_df)
  = index inventory
  ∧ wf (export_to_excel inventory excluded_df one_to_one_df many_to_one_df).
Proof.
  intros Hwf. split; [apply export_to_excel_index|].
  unfold wf. rewrite export_to_excel_index, export_to_excel_data.
  by apply foldl_fold_column_wf, apply_exclusions_wf.
Qed.

Lemma resolution_keeps_shape_witness :
  index (export_to_excel matrix0 [Some "Z"%string] [rule_F_to_M] [alias_B_of_M])
  = index matrix0
  ∧ wf (export_to_excel matrix0 [Some "Z"%string] [rule_F_to_M] [alias_B_of_M]).
Proof.
  exact (resolution_keeps_shape matrix0 [Some "Z"%string] [rule_F_to_M] [alias_B_of_M]
           matrix0_wf).
Defined.

(** X14. A part that is neither excluded nor named by any rule, as free,
    alias or main part, keeps its column unchanged through the whole alias
    resolution (and stays absent if it was absent). *)
Theorem unnamed_column_is_untouched inventory excluded_df one_to_one_df many_to_one_df q :
  q ∉ excluded_parts excluded_df →
  (q ∉ OneToOne.Free_Part_No <$> one_to_one_df) →
  (q ∉ OneToOne.Main_Part_No <$> one_to_one_df) →
  (q ∉ ManyToOne.Alias_Part_No <$> many_to_one_df) →
  (q ∉ ManyToOne.Main_Part_No <$> many_to_one_df) →
  data (export_to_excel inventory excluded_df one_to_one_df many_to_one_df) !! q
  = data inventory !! q.
Proof.
  intros Hex Hf Hm Ha Hmm.
  rewrite export_to_excel_data, foldl_fold_column_other.
  - by rewrite apply_exclusions_data, decide_False by done.
  - rewrite sources_of_rules. tauto.
  - rewrite mains_of_rules. tauto.
Qed.

Lemma unnamed_column_is_untouched_witness :
  data (export_to_excel matrix0 [Some "Z"%string] [rule_F_to_N] []) !! "B"%string
  = data matrix0 !! "B"%string.
Proof.
  assert (H1 : "B"%string ∉ excluded_parts [Some "Z"%string]).
  { simpl. intros H. apply list_elem_of_singleton in H. discriminate H. }
  assert (H2 : "B"%string ∉ OneToOne.Free_Part_No <$> [rule_F_to_N]).
  { simpl. intros H. apply list_elem_of_singleton in H. discriminate H. }
  assert (H3 : "B"%string ∉ OneToOne.Main_Part_No <$> [rule_F_to_N]).
  { simpl. intros H. apply list_elem_of_singleton in H. discriminate H. }
  assert (H4 : "B"%string ∉ ManyToOne.Alias_Part_No <$> []) by (intros H; inversion H).
  assert (H5 : "B"%string ∉ ManyToOne.Main_Part_No <$> []) by (intros H; inversion H).
  exact (unnamed_column_is_untouched matrix0 [Some "Z"%string] [rule_F_to_N] [] "B"
           H1 H2 H3 H4 H5).
Defined.

(** X15. Resolving twice is resolving once: when no part is both a main part
    and a free or alias part, and no excluded part is a main part, running
    the alias resolution again on a resolved matrix, with the same rules,
    changes nothing. *)
Theorem resolution_is_idempotent inventory excluded_df one_to_one_df many_to_one_df :
  (∀ x, x ∈ OneToOne.Main_Part_No <$> one_to_one_df
        ∨ x ∈ ManyToOne.Main_Part_No <$> many_to_one_df →
        (x ∉ OneToOne.Free_Part_No <$> one_to_one_df)
        ∧ (x ∉ ManyToOne.Alias_Part_No <$> many_to_one_df)
        ∧ x ∉ excluded_parts excluded_df) →
  export_to_excel
    (export_to_excel inventory excluded_df one_to_one_df many_to_one_df)
    excluded_df one_to_one_df many_to_one_df
  = export_to_excel inventory excluded_df one_to_one_df many_to_one_df.
Proof.
  intros Hroles.
  assert (Hdis : roles_disjoint (rules_of one_to_one_df many_to_one_df)).
  { apply roles_disjoint_tables. intros x Hx. destruct (Hroles x Hx) as (? & ? & ?). done. }
  set (R := export_to_excel inventory excluded_df one_to_one_df many_to_one_df).
  assert (Hex : data (apply_exclusions R excluded_df) = data R).
  { apply map_eq. intros q. rewrite apply_exclusions_data.
    destruct (decide (q ∈ excluded_parts excluded_df)) as [Hq|]; [|done].
    symmetry. unfold R. rewrite export_to_excel_data.
    apply foldl_fold_column_absent.
    - by rewrite apply_exclusions_data, decide_True by done.
    - rewrite mains_of_rules. intros Hx. by destruct (Hroles q Hx) as (_ & _ & ?). }
  apply frame_eq; [by rewrite export_to_excel_index|].
  rewrite export_to_excel_data, Hex.
  apply foldl_fold_column_no_sources. intros s Hs.
  unfold R. rewrite export_to_excel_data. by apply foldl_fold_column_sources.
Qed.

Lemma resolution_is_idempotent_witness :
  export_to_excel
    (export_to_excel matrix0 [Some "Z"%string] [rule_F_to_M] [alias_B_of_M])
    [Some "Z"%string] [rule_F_to_M] [alias_B_of_M]
  = export_to_excel matrix0 [Some "Z"%string] [rule_F_to_M] [alias_B_of_M].
Proof.
  assert (H : ∀ x, x ∈ OneToOne.Main_Part_No <$> [rule_F_to_M]
                   ∨ x ∈ ManyToOne.Main_Part_No <$> [alias_B_of_M] →
                   (x ∉ OneToOne.Free_Part_No <$> [rule_F_to_M])
                   ∧ (x ∉ ManyToOne.Alias_Part_No <$> [alias_B_of_M])
                   ∧ x ∉ excluded_parts [Some "Z"%string]).
  { intros x Hx.
    assert (x = "M"%string) as ->
      by (destruct Hx as [Hx|Hx]; apply list_elem_of_singleton in Hx; exact Hx).
    repeat split; intros H; apply list_elem_of_singleton in H; discriminate H. }
  exact (resolution_is_idempotent matrix0 [Some "Z"%string] [rule_F_to_M]
           [alias_B_of_M] H).
Defined.

(** X16. The exclusion step removes exactly the listed parts: a part is a
    column afterwards when it was a column before and is not listed, and
    then its values are unchanged.  Nulls in the list and listed parts that
    are not columns are passed over, and neither the order of the list nor
    repetitions in it matter. *)
Theorem exclusions_remove_exactly_the_listed inventory excluded_df q :
  (has_column (apply_exclusions inventory excluded_df) q
   ↔ has_column inventory q ∧ q ∉ excluded_parts excluded_df)
  ∧ (q ∉ excluded_parts excluded_df →
     data (apply_exclusions inventory excluded_df) !! q = data inventory !! q)
  ∧ index (apply_exclusions inventory excluded_df) = index inventory.
Proof.
  unfold has_column. rewrite apply_exclusions_data, apply_exclusions_index.
  split; [|split; [|done]].
  - destruct (decide (q ∈ excluded_parts excluded_df)) as [Hq|Hq]; split.
    + by intros [? ?].
    + by intros [_ ?].
    + by intros ?.
    + by intros [? _].
  - intros Hq. by rewrite decide_False by done.
Qed.




(** * The report rows and their styling *)

Lemma part_no_model_mapping_lookup product_data p :
  part_no_model_mapping product_data !! p
  = Product.Model <$> last_record product_data p.
Proof.
  unfold part_no_model_mapping, last_record.
  induction product_data as [|r l IH] using rev_ind; [done|].
  rewrite foldl_app, filter_app, filter_cons, filter_nil. cbn [foldl].
  rewrite lookup_insert. destruct (decide (Product.Part_No r = p)) as [Hp|Hp].
  - by rewrite last_snoc.
  - by rewrite app_nil_r.
Qed.

(** X18. In the report every column of the resolved matrix becomes one row
    with the same values, and the model shown for a part is the model of
    the last record of that part in the product table (while its starting
    quantity comes from the first record with a quantity); a part without a
    record, such as a main part that exists only through a rename, has no
    model. *)
Theorem report_row_model inventory product_data p :
  inventory_transposed inventory product_data !! p
  = (λ c, (last_record product_data p ≫= Product.Model, c)) <$> data inventory !! p.
Proof.
  unfold inventory_transposed, index_map.
  rewrite map_lookup_imap, part_no_model_mapping_lookup.
  destruct (data inventory !! p) as [c|]; [|done]. simpl.
  by destruct (last_record product_data p).
Qed.

Lemma foldl_month_end_columns header (cols acc : list nat) :
  foldl (λ month_end_cols col,
           if is_month_end (header_value header col)
           then month_end_cols ++ [col] else month_end_cols) acc cols
  = acc ++ filter (λ col, is_month_end (header_value header col)) cols.
Proof.
  revert acc. induction cols as [|c cols IH]; intros acc.
  - by rewrite app_nil_r.
  - cbn [foldl]. rewrite IH, filter_cons.
    destruct (is_month_end (header_value header c)); simpl; [|done].
    by rewrite <- app_assoc.
Qed.

Lemma elem_of_get_month_end_columns header col :
  col ∈ get_month_end_columns header ↔ month_end_column header col.
Proof.
  unfold get_month_end_columns, month_end_column.
  rewrite foldl_month_end_columns, app_nil_l, list_elem_of_filter, elem_of_seq.
  split.
  - intros [Hme Hcol]. split; [lia|].
    destruct col as [|c]; [lia|]. simpl in *. rewrite Nat.sub_0_r.
    destruct (header !! c) as [[d|]|] eqn:Ec; simpl in Hme; try done.
    exists d. split; [done|]. by apply bool_decide_unpack in Hme.
  - intros [Hcol (d & Hd & Hday)]. split; [|lia].
    destruct col as [|c]; [lia|]. simpl in *. rewrite Nat.sub_0_r in Hd.
    rewrite Hd. simpl. by apply bool_decide_pack.
Qed.

(** X19. The styling loop gives a numeric cell a red font exactly when its
    value is negative and a bold font exactly when its column is one of the
    columns from the third on whose header is a date on the last day of its
    month; a non-negative number elsewhere, and every cell that is not a
    number, keeps the font it had.  The first two columns (part number and
    model) are never treated as month ends. *)
Theorem styling_font_rule header col value :
  match cell_font value col (get_month_end_columns header) with
  | Some f =>
      (∃ v, value = VNum v ∧ (red f = true ↔ v < 0))
      ∧ (bold f = true ↔ month_end_column header col)
  | None =>
      ∀ v, value = VNum v → ¬ v < 0 ∧ ¬ month_end_column header col
  end.
Proof.
  unfold cell_font. destruct value as [v|]; [|done].
  destruct (bool_decide (v < 0)) eqn:Hneg;
    destruct (bool_decide (col ∈ get_month_end_columns header)) eqn:Hme; simpl.
  - apply bool_decide_eq_true in Hneg, Hme. apply elem_of_get_month_end_columns in Hme.
    split; [exists v|]; tauto.
  - apply bool_decide_eq_true in Hneg. apply bool_decide_eq_false in Hme.
    rewrite elem_of_get_month_end_columns in Hme.
    split; [exists v; tauto|]. split; [done|tauto].
  - apply bool_decide_eq_false in Hneg. apply bool_decide_eq_true in Hme.
    apply elem_of_get_month_end_columns in Hme.
    split; [exists v; split; [done|]; split; [done|tauto]|tauto].
  - apply bool_decide_eq_false in Hneg, Hme.
    rewrite elem_of_get_month_end_columns in Hme.
    intros v' [= <-]. tauto.
Qed.

(** X20. [get_month_end_columns] returns, in ascending order and each once,
    exactly the columns from the third to the last whose header cell is a
    date that falls on the last day of its month. *)
Theorem month_end_columns_exact header :
  get_month_end_columns header
  = filter (λ col, is_month_end (header_value header col))
      (seq 3 (length header - 2))
  ∧ NoDup (get_month_end_columns header)
  ∧ ∀ col, col ∈ get_month_end_columns header ↔ month_end_column header col.
Proof.
  assert (Heq : get_month_end_columns header
                = filter (λ col, is_month_end (header_value header col))
                    (seq 3 (length header - 2)))
    by (unfold get_month_end_columns; by rewrite foldl_month_end_columns).
  split; [done|]. split; [|apply elem_of_get_month_end_columns].
  rewrite Heq. apply NoDup_filter, NoDup_seq.
Qed.

(** November has 30 days: of the header dates 29 and 30 November and
    1 December only the second is a month end. *)
Example month_end_columns_header0 : get_month_end_columns header0 = [4%nat].
Proof. reflexivity. Qed.


(** * Grouping and the order of the rules *)


Local Instance str_le_total : Total str_le.
Proof. intros a b. apply String.leb_total. Qed.







(** X23. Every column of the balance matrix has one value per date of the
    axis, 181 of them. *)
Theorem balance_matrix_is_rectangular today factory_data order_data product_data :
  wf (calculate_inventory today factory_data order_data product_data)
  ∧ ∀ p c,
      data (calculate_inventory today factory_data order_data product_data) !! p = Some c →
      length c = 181%nat.
Proof.
  assert (Hlen : ∀ p c,
    data (calculate_inventory today factory_data order_data product_data) !! p = Some c →
    length c = 181%nat).
  { intros p c Hc.
    pose proof (roll_forward_inv (date_range today)
      (factory_agg today (products_of product_data) factory_data)
      (order_agg today (products_of product_data)
         (filter_orders (start_date today) order_data))
      (initial_inventory today product_data)
      (date_range_NoDup today)
      (factory_agg_index today _ factory_data)
      (order_agg_index today _ _)
      (initial_inventory_index today product_data)
      (initial_inventory_wf today product_data)) as Hinv.
    destruct Hinv as [_ Hcols].
    - intros q Hq. apply factory_agg_columns. by apply initial_inventory_columns in Hq.
    - intros q Hq. apply order_agg_columns. by apply initial_inventory_columns in Hq.
    - specialize (Hcols p). unfold calculate_inventory in Hc.
      destruct (data (initial_inventory today product_data) !! p).
      + destruct Hcols as (c' & Hc' & Hl & _). rewrite Hc' in Hc.
        injection Hc as <-. by rewrite Hl, date_range_length.
      + by rewrite Hcols in Hc. }
  split; [|done].
  intros p c Hc. rewrite calculate_inventory_index, date_range_length. by eapply Hlen.
Qed.


(** X24. A one-to-one rule whose free part is excluded does nothing, provided
    no earlier one-to-one rule names that part as its main part: the
    resolved matrix is the same as without the rule, so nothing of the
    excluded part is merged into the main part. *)
Theorem rule_on_excluded_part_is_void
    inventory excluded_df pre row post many_to_one_df :
  OneToOne.Free_Part_No row ∈ excluded_parts excluded_df →
  (OneToOne.Free_Part_No row ∉ OneToOne.Main_Part_No <$> pre) →
  export_to_excel inventory excluded_df (pre ++ row :: post) many_to_one_df
  = export_to_excel inventory excluded_df (pre ++ post) many_to_one_df.
Proof.
  intros Hex Hpre. apply frame_eq; [by rewrite !export_to_excel_index|].
  rewrite !export_to_excel_data. unfold rules_of.
  rewrite !fmap_app, !foldl_app. f_equal.
  rewrite fmap_cons. cbn [foldl]. f_equal.
  apply fold_column_no_source. simpl.
  apply foldl_fold_column_absent.
  - by rewrite apply_exclusions_data, decide_True by done.
  - rewrite <- list_fmap_compose. exact Hpre.
Qed.

Lemma rule_on_excluded_part_is_void_witness :
  export_to_excel matrix0 [Some "F"%string] ([] ++ rule_F_to_M :: []) [alias_B_of_M]
  = export_to_excel matrix0 [Some "F"%string] ([] ++ []) [alias_B_of_M].
Proof.
  assert (H1 : OneToOne.Free_Part_No rule_F_to_M ∈ excluded_parts [Some "F"%string])
    by (simpl; constructor).
  assert (H2 : OneToOne.Free_Part_No rule_F_to_M ∉ OneToOne.Main_Part_No <$> [])
    by (intros H; inversion H).
  exact (rule_on_excluded_part_is_void matrix0 [Some "F"%string] [] rule_F_to_M []
           [alias_B_of_M] H1 H2).
Defined.
